(** * Conflict-watch ingestion core: tension engine, classification gateway
      and cycle orchestrator

    A shallow embedding of [src/backend/tensionCalc.js],
    [src/backend/claude.js] (the part used by the news cron) and
    [src/backend/newsCron.js].

    - JavaScript numbers are IEEE 754 binary64 values: they are modelled by
      [spec_float] with the operations of the standard library's [SpecFloat]
      instantiated at precision 53 and maximal exponent 1024.
    - JavaScript strings are sequences of UTF-16 code units.
    - The orchestrator is modelled in a state-and-exception monad over the
      module-level guard flag and the trace of calls made to the external
      collaborators (search providers, reasoning service, store, channel). *)

From Stdlib Require Import ZArith List Bool Lia String Ascii.
From Stdlib Require Import SpecFloat DecimalString.
Import ListNotations.

Set Implicit Arguments.

(** ** JavaScript numbers *)

Module JsNumber.

Definition number := spec_float.

Definition prec : Z := 53.
Definition emax : Z := 1024.

Definition NaN : number := S754_nan.

Definition add : number -> number -> number := SFadd prec emax.
Definition sub : number -> number -> number := SFsub prec emax.
Definition mul : number -> number -> number := SFmul prec emax.
Definition div : number -> number -> number := SFdiv prec emax.
Definition neg : number -> number := SFopp.

(** [x < y], [x <= y], [x >= y] of the language: false as soon as an operand
    is NaN. *)
Definition lt (x y : number) : bool := SFltb x y.
Definition le (x y : number) : bool := SFleb x y.
Definition ge (x y : number) : bool := SFleb y x.

Definition isNaN (x : number) : bool :=
  match x with S754_nan => true | _ => false end.

Definition isFinite (x : number) : bool :=
  match x with S754_zero _ | S754_finite _ _ _ => true | _ => false end.

(** The number whose value is the integer [z] (rounded to nearest-even when
    [|z|] needs more than 53 bits). *)
Definition of_Z (z : Z) : number := binary_normalize prec emax z 0 false.

(** A decimal literal [n / 10^k] of the source text.  The literal denotes the
    binary64 value nearest to the quotient, which is also what the correctly
    rounded division of the two (exactly representable) integers returns. *)
Definition decimal (n : Z) (k : nat) : number :=
  div (of_Z n) (of_Z (10 ^ Z.of_nat k)).

(** ToBoolean on a number: [0], [-0] and [NaN] are falsy. *)
Definition truthy (x : number) : bool :=
  match x with
  | S754_zero _ | S754_nan => false
  | _ => true
  end.

(** [Math.round]: the integer nearest to [x], ties going towards +Infinity;
    infinities, NaN and zeros are returned unchanged, and a negative [x] that
    rounds to zero gives [-0].  For a finite [x = m * 2^e] with [e < 0] the
    result is [floor (x + 1/2)], computed exactly on integers. *)
Definition Math_round (x : number) : number :=
  match x with
  | S754_finite s m e =>
      if (0 <=? e)%Z then x
      else
        let d := Z.opp e in
        let sm := if s then Z.neg m else Z.pos m in
        let n := Z.div (2 * sm + 2 ^ d) (2 ^ (d + 1)) in
        if (n =? 0)%Z then S754_zero s else of_Z n
  | _ => x
  end.

(** [Math.max] and [Math.min] on two arguments: NaN if either is NaN, and
    [+0] is larger than [-0]. *)
Definition Math_max (x y : number) : number :=
  if isNaN x || isNaN y then NaN
  else if lt x y then y
  else if lt y x then x
  else match x, y with
       | S754_zero true, S754_zero sy => S754_zero sy
       | _, _ => x
       end.

Definition Math_min (x y : number) : number :=
  if isNaN x || isNaN y then NaN
  else if lt x y then x
  else if lt y x then y
  else match x, y with
       | S754_zero false, S754_zero sy => S754_zero sy
       | _, _ => x
       end.

End JsNumber.

Import JsNumber.

(** ** JavaScript strings *)

Module JsString.

(** A string of the language: a sequence of UTF-16 code units. *)
Definition jsstring := list N.

Definition bytes_of (s : string) : list N :=
  List.map (fun a => N_of_ascii a) (list_ascii_of_string s).

(** Code points of a UTF-8 byte sequence (the encoding of this file's string
    literals). *)
Fixpoint utf8_code_points (bs : list N) : list N :=
  match bs with
  | [] => []
  | b0 :: rest =>
      if b0 <? 128 then b0 :: utf8_code_points rest
      else if b0 <? 224 then
        match rest with
        | b1 :: rest1 =>
            ((b0 - 192) * 64 + (b1 - 128)) :: utf8_code_points rest1
        | [] => [b0]
        end
      else if b0 <? 240 then
        match rest with
        | b1 :: b2 :: rest2 =>
            ((b0 - 224) * 4096 + (b1 - 128) * 64 + (b2 - 128))
              :: utf8_code_points rest2
        | _ => [b0]
        end
      else
        match rest with
        | b1 :: b2 :: b3 :: rest3 =>
            ((b0 - 240) * 262144 + (b1 - 128) * 4096 + (b2 - 128) * 64
             + (b3 - 128)) :: utf8_code_points rest3
        | _ => [b0]
        end
  end%N.

Definition utf16_units (cp : N) : list N :=
  if (cp <? 65536)%N then [cp]
  else [(55296 + (cp - 65536) / 1024)%N; (56320 + (cp - 65536) mod 1024)%N].

(** The string denoted by a literal of the source. *)
Definition js (s : string) : jsstring :=
  List.flat_map utf16_units (utf8_code_points (bytes_of s)).

Fixpoint eqb (s t : jsstring) : bool :=
  match s, t with
  | [], [] => true
  | c :: s', d :: t' => (c =? d)%N && eqb s' t'
  | _, _ => false
  end.

(** [s.startsWith(p)] and [s.includes(p)]: comparison of code units. *)
Fixpoint startsWith (p s : jsstring) : bool :=
  match p, s with
  | [], _ => true
  | c :: p', d :: s' => (c =? d)%N && startsWith p' s'
  | _ :: _, [] => false
  end.

Fixpoint includes (p s : jsstring) : bool :=
  startsWith p s ||
  match s with
  | [] => false
  | _ :: s' => includes p s'
  end.

(** [s.toLowerCase()], on the Basic Latin and Latin-1 Supplement blocks (the
    alphabets of the keyword tables; the Arabic block has no case).  Code
    units of the other blocks are left unchanged. *)
Definition lower_unit (c : N) : N :=
  if ((65 <=? c) && (c <=? 90))%N then (c + 32)%N
  else if ((192 <=? c) && (c <=? 222) && negb (c =? 215))%N then (c + 32)%N
  else c.

Definition toLowerCase (s : jsstring) : jsstring := List.map lower_unit s.

(** White space and line terminators removed by [trim]. *)
Definition is_space (c : N) : bool :=
  ((9 <=? c) && (c <=? 13) || (c =? 32) || (c =? 160) || (c =? 5760)
   || (8192 <=? c) && (c <=? 8202) || (c =? 8232) || (c =? 8233)
   || (c =? 8239) || (c =? 8287) || (c =? 12288) || (c =? 65279))%N.

Fixpoint trimStart (s : jsstring) : jsstring :=
  match s with
  | c :: s' => if is_space c then trimStart s' else s
  | [] => []
  end.

Definition trim (s : jsstring) : jsstring :=
  List.rev (trimStart (List.rev (trimStart s))).

(** [s.slice(0, n)]. *)
Definition slice0 (n : nat) (s : jsstring) : jsstring := List.firstn n s.

(** ToBoolean on a string: only the empty string is falsy. *)
Definition truthy (s : jsstring) : bool :=
  match s with [] => false | _ => true end.

(** [Array.prototype.some]. *)
Definition some {A} (f : A -> bool) (l : list A) : bool := List.existsb f l.

End JsString.

Import JsString.

(** ** Tension engine ([tensionCalc.js]) *)

(** Scores per event category. *)
Definition CATEGORY_SCORES : list (jsstring * number) :=
  [ (js "military",   of_Z 8);
    (js "nuclear",    of_Z 6);
    (js "economic",   of_Z 5);
    (js "cyber",      of_Z 4);
    (js "diplomatic", of_Z 3);
    (js "other",      of_Z 1) ].

(** High-tension keywords (multiplier). *)
Definition CRITICAL_KEYWORDS : list jsstring :=
  List.map js
  [ "strike"; "attack"; "missile"; "launched"; "fired"; "bomb";
    "retaliation"; "war"; "invasion"; "nuclear weapon"; "warhead";
    "ataque"; "míssil"; "guerra"; "bomba"; "retaliação";
    "ضربة"; "صاروخ"; "حرب" ]%string.

(** De-escalation keywords (reducer). *)
Definition DEESCALATION_KEYWORDS : list jsstring :=
  List.map js
  [ "negotiation"; "agreement"; "deal"; "ceasefire"; "diplomacy";
    "talks"; "peace"; "accord"; "dialogue";
    "negociação"; "acordo"; "cessar-fogo"; "diplomacia"; "paz" ]%string.

(** Property names that every object literal inherits from
    [Object.prototype]: looking one of them up in [CATEGORY_SCORES] yields a
    function or an object, which is truthy and converts to NaN in the
    product. *)
Definition inherited_keys : list jsstring :=
  List.map js
  [ "constructor"; "__proto__"; "hasOwnProperty"; "isPrototypeOf";
    "propertyIsEnumerable"; "toLocaleString"; "toString"; "valueOf";
    "__defineGetter__"; "__defineSetter__"; "__lookupGetter__";
    "__lookupSetter__" ]%string.

Fixpoint lookup (k : jsstring) (table : list (jsstring * number))
  : option number :=
  match table with
  | [] => None
  | (k', v) :: rest => if JsString.eqb k k' then Some v else lookup k rest
  end.

(** [CATEGORY_SCORES[category] || 1], as a number. *)
Definition baseScore (category : jsstring) : number :=
  match lookup category CATEGORY_SCORES with
  | Some v => if JsNumber.truthy v then v else of_Z 1
  | None =>
      if some (JsString.eqb category) inherited_keys then NaN else of_Z 1
  end.

Definition hasCritical (title : jsstring) : bool :=
  some (fun kw => includes kw (toLowerCase title)) CRITICAL_KEYWORDS.

Definition hasDeescalation (title : jsstring) : bool :=
  some (fun kw => includes kw (toLowerCase title)) DEESCALATION_KEYWORDS.

(** [Math.round(x * 100) / 100]. *)
Definition round2 (x : number) : number :=
  div (Math_round (mul x (of_Z 100))) (of_Z 100).

(** [0.5 + aiScore / 10]. *)
Definition aiMultiplier (aiScore : number) : number :=
  add (decimal 5 1) (div aiScore (of_Z 10)).

Definition calculateTensionDelta
  (category : jsstring) (aiScore : number) (title : jsstring) : number :=
  let delta := mul (baseScore category) (aiMultiplier aiScore) in
  let delta := if hasCritical title then mul delta (decimal 13 1) else delta in
  let delta :=
    if hasDeescalation title then mul delta (neg (decimal 5 1)) else delta in
  round2 delta.

Definition BASELINE : number := of_Z 60.
Definition GRAVITY : number := decimal 2 2.

(** [newValue + (BASELINE - newValue) * GRAVITY]. *)
Definition withGravity (current delta : number) : number :=
  let newValue := add current delta in
  add newValue (mul (sub BASELINE newValue) GRAVITY).

Definition applyTensionDelta (current delta : number) : number :=
  Math_min (of_Z 100)
    (Math_max (of_Z 0) (round2 (withGravity current delta))).

Definition ALERT_KEYWORDS : list jsstring :=
  List.map js
  [ "strike"; "missile"; "retaliation"; "attack"; "nuclear weapon";
    "enrichment above 80"; "warship"; "blockade"; "explosion";
    "ataque"; "míssil"; "retaliação"; "bloqueio" ]%string.

(** [`${title} ${description || ''}`]: an absent or empty description
    contributes nothing after the space. *)
Definition alertText (title : jsstring) (description : option jsstring)
  : jsstring :=
  title ++ js " " ++ match description with Some d => d | None => [] end.

(** [shouldTriggerAlert(event)], on the three properties it reads. *)
Definition shouldTriggerAlert
  (title : jsstring) (description : option jsstring) (impact_score : number)
  : bool :=
  ge impact_score (of_Z 8)
  || some (fun kw => includes kw (toLowerCase (alertText title description)))
          ALERT_KEYWORDS.

(** ** Values of the language, as far as the orchestrator inspects them *)

Inductive jsval :=
  | JUndefined
  | JNull
  | JBool (b : bool)
  | JNum (n : number)
  | JStr (s : jsstring)
  | JObject (ref : nat).

Definition ToBoolean (v : jsval) : bool :=
  match v with
  | JUndefined | JNull => false
  | JBool b => b
  | JNum n => JsNumber.truthy n
  | JStr s => JsString.truthy s
  | JObject _ => true
  end.

(** The unary [!] operator: always a boolean. *)
Definition js_not (v : jsval) : jsval := JBool (negb (ToBoolean v)).

(** The [===] operator: operands of different types are never equal. *)
Definition strict_equals (a b : jsval) : bool :=
  match a, b with
  | JUndefined, JUndefined => true
  | JNull, JNull => true
  | JBool x, JBool y => Bool.eqb x y
  | JNum x, JNum y => SFeqb x y
  | JStr x, JStr y => JsString.eqb x y
  | JObject x, JObject y => Nat.eqb x y
  | _, _ => false
  end.

(** ** Data model *)

Record Article := {
  title        : jsstring;
  description  : option jsstring;
  url          : jsstring;
  source       : jsstring;
  published_at : jsstring;
}.

(** The object the classification request resolves to, at the types of the
    schema the prompt asks for.  The values are whatever the service sent. *)
Record Classification := {
  category     : jsstring;
  impact_score : number;
  is_critical  : bool;
  summary_pt   : jsstring;
  summary_en   : jsstring;
  keywords     : list jsstring;
}.

Record Translations := {
  pt : jsstring;
  es : jsstring;
  ar : jsstring;
  fa : jsstring;
}.

(** The row handed to [news_events.insert]. *)
Record EventRow := {
  row_title         : jsstring;
  row_description   : option jsstring;
  row_url           : jsstring;
  row_source        : jsstring;
  row_published_at  : jsstring;
  row_category      : jsstring;
  row_impact_score  : number;
  row_is_critical   : bool;
  row_ai_summary    : jsstring;
  row_keywords      : list jsstring;
  row_tension_delta : number;
  row_title_en      : jsstring;
  row_title_pt      : jsstring;
  row_title_es      : jsstring;
  row_title_ar      : jsstring;
  row_title_fa      : jsstring;
}.

(** What [.insert(row).select().single()] resolves to on success: the row as
    inserted, with the key the store generated for it. *)
Record SavedEvent := {
  id        : nat;
  saved_row : EventRow;
}.

(** The error object of a failed store request; only its [code] property is
    read. *)
Record StoreError := { code : jsval }.

Inductive InsertReply :=
  | Inserted (event_id : nat)
  | InsertFailed (insertError : StoreError).

Record AlertData := {
  event   : SavedEvent;
  score   : number;
  summary : jsstring;
}.

Record Alert := {
  alert_id      : nat;
  alert_title   : jsstring;
  alert_message : jsstring;
}.

Inductive AlertReply :=
  | AlertInserted (data : Alert)
  | AlertFailed (error : StoreError).

(** ** Calls to the external collaborators *)

Inductive level := Info | Warn | Error.

(** One constructor per kind of request.  The two requests to the reasoning
    service are fixed prompts around the title (and description) they carry;
    a log line is kept with its level and message. *)
Inductive call :=
  | Log (l : level) (msg : jsstring)
  | FetchLatestNews
  | SelectLatestTension
  | SelectEventByUrl (u : jsstring)
  | GatewayClassify (t : jsstring) (d : option jsstring)
  | GatewayTranslate (t : jsstring)
  | InsertEvent (row : EventRow)
  | InsertTension (tension_value : number) (notes : jsstring)
  | Sleep (ms : Z)
  | InsertAlert (event_id : nat) (t message severity cat : jsstring)
  | SendTelegramAlert (t message severity : jsstring)
  | SelectProUsers
  | NotifyProUsersViaTelegram (a : Alert) (users : nat).

Definition trace := list call.

(** How an awaited call ends: it resolves to a value or it throws. *)
Inductive outcome (A : Type) :=
  | Returned (a : A)
  | Thrown.

Arguments Returned {A} a.
Arguments Thrown {A}.

(** The collaborators.  Each answers from the history of calls up to and
    including the request it is answering.  [JSON_parse_classification] and
    [JSON_parse_translations] are [JSON.parse] read at the two schemas;
    [None] stands for the [SyntaxError] it throws. *)
Record Env := {
  fetchLatestNews            : trace -> outcome (list Article);
  latestTension              : trace -> outcome (option number);
  eventExists                : trace -> outcome bool;
  gatewayText                : trace -> outcome jsstring;
  JSON_parse_classification  : jsstring -> option Classification;
  JSON_parse_translations    : jsstring -> option Translations;
  insertEvent                : trace -> outcome InsertReply;
  insertTension              : trace -> outcome unit;
  insertAlert                : trace -> outcome AlertReply;
  sendTelegramAlert          : trace -> outcome unit;
  proUsers                   : trace -> outcome nat;
  notifyProUsersViaTelegram  : trace -> outcome unit;
}.

(** ** The monad of the orchestrator *)

Record State := {
  isRunning : bool;
  history   : trace;
}.

Definition M (A : Type) : Type := State -> outcome A * State.

Definition ret {A} (a : A) : M A := fun st => (Returned a, st).

Definition throw {A} : M A := fun st => (Thrown, st).

Definition bind {A B} (m : M A) (k : A -> M B) : M B :=
  fun st =>
    match m st with
    | (Returned a, st') => k a st'
    | (Thrown, st') => (Thrown, st')
    end.

Declare Scope js_scope.
Delimit Scope js_scope with js_scope.

Notation "x <- m ;; k" := (bind m (fun x => k))
  (at level 61, m at next level, right associativity) : js_scope.
Notation "m ;;; k" := (bind m (fun _ => k))
  (at level 61, right associativity) : js_scope.

Open Scope js_scope.

(** [try { body } catch (err) { handler }]. *)
Definition try_catch {A} (body handler : M A) : M A :=
  fun st =>
    match body st with
    | (Returned a, st') => (Returned a, st')
    | (Thrown, st') => handler st'
    end.

(** [try { body } finally { cleanup }]. *)
Definition try_finally {A} (body : M A) (cleanup : M unit) : M A :=
  fun st =>
    match body st with
    | (r, st') =>
        match cleanup st' with
        | (Returned _, st'') => (r, st'')
        | (Thrown, st'') => (Thrown, st'')
        end
    end.

Definition record (c : call) (st : State) : State :=
  {| isRunning := isRunning st; history := history st ++ [c] |}.

(** An awaited call: the request is appended to the history and the
    collaborator answers from it. *)
Definition await {A} (c : call) (answer : trace -> outcome A) : M A :=
  fun st => (answer (history (record c st)), record c st).

(** Logging and sleeping do not fail. *)
Definition emit (c : call) : M unit := fun st => (Returned tt, record c st).

Definition logger (l : level) (msg : string) : M unit := emit (Log l (js msg)).

Definition get_isRunning : M bool := fun st => (Returned (isRunning st), st).

Definition set_isRunning (b : bool) : M unit :=
  fun st => (Returned tt, {| isRunning := b; history := history st |}).

(** [for (const x of xs) { body }] over the loop's mutable variables. *)
Fixpoint for_of {A S} (xs : list A) (body : A -> S -> M S) (s : S) : M S :=
  match xs with
  | [] => ret s
  | x :: xs' => s' <- body x s ;; for_of xs' body s'
  end.

(** ** Classification gateway ([claude.js]) *)

(** [raw.replace(/```json|```/g, '')]: scanning from the left, every
    occurrence of the longer alternative, else of the shorter one, is
    removed. *)
Fixpoint strip_fences (s : jsstring) : jsstring :=
  match s with
  | 96%N :: 96%N :: 96%N :: 106%N :: 115%N :: 111%N :: 110%N :: rest =>
      strip_fences rest
  | 96%N :: 96%N :: 96%N :: rest => strip_fences rest
  | c :: rest => c :: strip_fences rest
  | [] => []
  end.

(** [response.content[0].text.trim()] cleaned of its fences and trimmed
    again. *)
Definition cleaned (text : jsstring) : jsstring :=
  trim (strip_fences (trim text)).

(** The safe fallback of [classifyNewsEvent]. *)
Definition fallbackClassification (t : jsstring) : Classification :=
  {| category     := js "other";
     impact_score := of_Z 3;
     is_critical  := false;
     summary_pt   := slice0 100 t;
     summary_en   := slice0 100 t;
     keywords     := [] |}.

Section Orchestrator.

Variable env : Env.

Definition classifyNewsEvent (t : jsstring) (d : option jsstring)
  : M Classification :=
  try_catch
    (text <- await (GatewayClassify t d) (gatewayText env) ;;
     match JSON_parse_classification env (cleaned text) with
     | Some c => ret c
     | None => throw
     end)
    (logger Error "classifyNewsEvent parse error" ;;;
     ret (fallbackClassification t)).

Definition translateNewsTitle (titleEn : jsstring) : M Translations :=
  try_catch
    (text <- await (GatewayTranslate titleEn) (gatewayText env) ;;
     match JSON_parse_translations env (cleaned text) with
     | Some t => ret t
     | None => throw
     end)
    (logger Error "translateNewsTitle error" ;;;
     ret {| pt := titleEn; es := titleEn; ar := titleEn; fa := titleEn |}).

(** ** Cycle orchestrator ([newsCron.js]) *)

(** The object literal passed to [insert]. *)
Definition eventRow (article : Article) (classification : Classification)
  (translations : Translations) (delta : number) : EventRow :=
  {| row_title         := title article;
     row_description   := description article;
     row_url           := url article;
     row_source        := source article;
     row_published_at  := published_at article;
     row_category      := category classification;
     row_impact_score  := impact_score classification;
     row_is_critical   :=
       is_critical classification
       || shouldTriggerAlert (title article) (description article)
            (impact_score classification);
     row_ai_summary    := summary_pt classification;
     row_keywords      := keywords classification;
     row_tension_delta := delta;
     row_title_en      := title article;
     row_title_pt      := pt translations;
     row_title_es      := es translations;
     row_title_ar      := ar translations;
     row_title_fa      := fa translations |}.

(** [!insertError.code === '23505'], parsed as
    [(!insertError.code) === '23505']. *)
Definition insertError_check (insertError : StoreError) : bool :=
  strict_equals (js_not (code insertError)) (JStr (js "23505")).

(** The test that queues an alert. *)
Definition needsAlert (savedEvent : SavedEvent)
  (classification : Classification) : bool :=
  row_is_critical (saved_row savedEvent)
  || ge (impact_score classification) (of_Z 8).

(** The mutable variables of the article loop. *)
Record LoopVars := {
  currentTension : number;
  alertsToFire   : list AlertData;
}.

(** What follows the insert in the body of the article loop. *)
Definition afterInsert (classification : Classification) (row : EventRow)
  (delta : number) (vars : LoopVars) (reply : InsertReply) : M LoopVars :=
  match reply with
  | InsertFailed insertError =>
      (if insertError_check insertError
       then logger Error "Insert error" else ret tt) ;;;
      ret vars
  | Inserted event_id =>
      let savedEvent := {| id := event_id; saved_row := row |} in
      let tension := applyTensionDelta (currentTension vars) delta in
      let alerts :=
        if needsAlert savedEvent classification
        then alertsToFire vars ++
             [ {| event   := savedEvent;
                  score   := impact_score classification;
                  summary := summary_pt classification |} ]
        else alertsToFire vars in
      logger Info "Event processed" ;;;
      emit (Sleep 500) ;;;
      ret {| currentTension := tension; alertsToFire := alerts |}
  end.

(** The body of the article loop.  [continue] leaves the variables as they
    are; so does the [catch] clause, the awaited calls that can throw coming
    before any assignment. *)
Definition processArticle (article : Article) (vars : LoopVars)
  : M LoopVars :=
  try_catch
    (exists_ <- await (SelectEventByUrl (url article)) (eventExists env) ;;
     if exists_ : bool then ret vars
     else
       classification <-
         classifyNewsEvent (title article) (description article) ;;
       translations <- translateNewsTitle (title article) ;;
       let delta :=
         calculateTensionDelta (category classification)
           (impact_score classification) (title article) in
       let row := eventRow article classification translations delta in
       reply <- await (InsertEvent row) (insertEvent env) ;;
       afterInsert classification row delta vars reply)
    (logger Error "Article processing error" ;;; ret vars).

(** [createAlert] of the store service. *)
Definition createAlert (event_id : nat) (t message severity cat : jsstring)
  : M (option Alert) :=
  reply <- await (InsertAlert event_id t message severity cat)
             (insertAlert env) ;;
  match reply with
  | AlertFailed _ => logger Error "createAlert failed" ;;; ret None
  | AlertInserted data => ret (Some data)
  end.

Definition severityOf (s : number) : jsstring :=
  if ge s (of_Z 9) then js "critical"
  else if ge s (of_Z 7) then js "high"
  else js "medium".

(** [summary || event.description || 'Evento crítico detectado']. *)
Definition alertMessage (alertData : AlertData) : jsstring :=
  if JsString.truthy (summary alertData) then summary alertData
  else match row_description (saved_row (event alertData)) with
       | Some ((_ :: _) as d) => d
       | _ => js "Evento crítico detectado"
       end.

Definition processAlert (alertData : AlertData) : M unit :=
  try_catch
    (let severity := severityOf (score alertData) in
     let saved := event alertData in
     alert <- createAlert (id saved) (row_title (saved_row saved))
                (alertMessage alertData) severity
                (row_category (saved_row saved)) ;;
     match alert with
     | None => ret tt
     | Some alert =>
         logger Info "Alert created" ;;;
         await (SendTelegramAlert (alert_title alert) (alert_message alert)
                  severity)
           (sendTelegramAlert env) ;;;
         users <- await SelectProUsers (proUsers env) ;;
         match users with
         | O => ret tt
         | S _ =>
             await (NotifyProUsersViaTelegram alert users)
               (notifyProUsersViaTelegram env)
         end
     end)
    (logger Error "processAlert failed").

(** [latestTension?.tension_value || 75]. *)
Definition startingTension (latest : option number) : number :=
  match latest with
  | Some tension_value =>
      if JsNumber.truthy tension_value then tension_value else of_Z 75
  | None => of_Z 75
  end.

Definition decimal_of_nat (n : nat) : jsstring :=
  js (NilZero.string_of_uint (Nat.to_uint n)).

(** [`Auto-update via news cron — ${articles.length} articles processed`]. *)
Definition tensionNotes (articles : list Article) : jsstring :=
  js "Auto-update via news cron — " ++ decimal_of_nat (List.length articles)
  ++ js " articles processed".

(** Steps 3 to 5 of the cycle: the article loop from a starting tension, the
    one tension sample, the queued alerts. *)
Definition processBatch (articles : list Article) (start : number)
  : M unit :=
  vars <- for_of articles processArticle
            {| currentTension := start; alertsToFire := [] |} ;;
  await (InsertTension (currentTension vars) (tensionNotes articles))
    (insertTension env) ;;;
  logger Info "Tension updated" ;;;
  for_of (alertsToFire vars) (fun a _ => processAlert a) tt ;;;
  logger Info "◈ News cycle completed".

(** The statements of the outer [try] block. *)
Definition cycleBody : M unit :=
  articles <- await FetchLatestNews (fetchLatestNews env) ;;
  match articles with
  | [] => logger Info "No new articles found"
  | _ :: _ =>
      latest <- await SelectLatestTension (latestTension env) ;;
      processBatch articles (startingTension latest)
  end.

Definition runNewsCycle : M unit :=
  running <- get_isRunning ;;
  if running : bool then
    logger Warn "News cron already running — skipping"
  else
    set_isRunning true ;;;
    logger Info "◈ News cycle started" ;;;
    try_finally
      (try_catch cycleBody (logger Error "News cycle failed"))
      (set_isRunning false).

End Orchestrator.

(** ** A small logic of histories

    [emits m P Q]: run from any state, [m] appends to the history only calls
    that satisfy [P], and any value it returns satisfies [Q]. *)

Definition emits {A} (m : M A) (P : call -> Prop) (Q : A -> Prop) : Prop :=
  forall st, exists l,
    history (snd (m st)) = history st ++ l /\
    Forall P l /\
    forall a, fst (m st) = Returned a -> Q a.

(** ** Signs and ranges of numbers *)

(** [x] is a zero, a finite number or an infinity of sign bit [s]. *)
Definition signed (s : bool) (x : number) : Prop :=
  match x with
  | S754_zero s' | S754_infinity s' | S754_finite s' _ _ => s' = s
  | S754_nan => False
  end.

(** [0 <= x && x <= 100]. *)
Definition in_0_100 (x : number) : bool :=
  le (of_Z 0) x && le x (of_Z 100).

(** [0 <= x && x <= 10]. *)
Definition in_0_10 (x : number) : bool :=
  le (of_Z 0) x && le x (of_Z 10).

(** The delta of a title that hits both keyword tables, for a base weight
    [b] and the score [k / 100]. *)
Definition both_hits_delta (b : number) (k : nat) : number :=
  round2 (mul (mul (mul b (aiMultiplier (decimal (Z.of_nat k) 2)))
                 (decimal 13 1))
            (neg (decimal 5 1))).

(** That delta is below zero at every score [0.00], [0.01], ..., [10.00]. *)
Definition negative_on_scale (b : number) : bool :=
  List.forallb (fun k => lt (both_hits_delta b k) (of_Z 0)) (List.seq 0 1001).

(** ** Provenance of the persisted impact score *)

(** [c] is an object that [JSON.parse] made out of some reply of the
    reasoning service. *)
Definition parsed_reply (env : Env) (c : Classification) : Prop :=
  exists h text,
    gatewayText env h = Returned text /\
    JSON_parse_classification env (cleaned text) = Some c.

Definition classified (env : Env) (t : jsstring) (c : Classification)
  : Prop :=
  c = fallbackClassification t \/ parsed_reply env c.

(** An insert of a news event carries the delta computed from the very
    score it carries, and that score is the fallback's 3 or the score of a
    parsed reply, as it came. *)
Definition forwards_score (env : Env) (c : call) : Prop :=
  match c with
  | InsertEvent row =>
      row_tension_delta row
      = calculateTensionDelta (row_category row) (row_impact_score row)
          (row_title row) /\
      (row_impact_score row = of_Z 3 \/
       exists c, parsed_reply env c /\ row_impact_score row = impact_score c)
  | _ => True
  end.

(** ** Example worlds *)

Module Examples.

Definition headline : Article :=
  {| title        := js "missile strike reported";
     description  := None;
     url          := js "https://news.example/1";
     source       := js "Example Wire";
     published_at := js "2026-01-01T00:00:00Z" |}.

(** JSON text written with apostrophes in place of the double quotes. *)
Definition json_text (s : string) : jsstring :=
  List.map (fun c => if (c =? 39)%N then 34%N else c) (js s).

(** A reply of the reasoning service that is not JSON. *)
Definition prose_reply : jsstring := js "I cannot classify this headline.".

(** A well-formed, fenced reply whose impact score is off the scale. *)
Definition offscale_reply : jsstring :=
  json_text
    "```json
{'category':'military','impact_score':42,'is_critical':false,'summary_pt':'x','summary_en':'x','keywords':[]}
```".

Definition offscale : Classification :=
  {| category     := js "military";
     impact_score := of_Z 42;
     is_critical  := false;
     summary_pt   := js "x";
     summary_en   := js "x";
     keywords     := [] |}.

(** [JSON.parse], tabulated on the texts of the examples: the object of
    [offscale_reply] once its fences are removed, a [SyntaxError] on
    [prose_reply]. *)
Definition parse_table (text : jsstring) : option Classification :=
  if JsString.eqb text
       (json_text "{'category':'military','impact_score':42,'is_critical':false,'summary_pt':'x','summary_en':'x','keywords':[]}")
  then Some offscale
  else None.

(** A world where the search returns [articles], the store holds [latest] as
    its most recent tension sample and none of the articles, the reasoning
    service answers every request with [reply], and every insert succeeds. *)
Definition world (articles : list Article) (latest : option number)
  (reply : jsstring) : Env :=
  {| fetchLatestNews           := fun _ => Returned articles;
     latestTension             := fun _ => Returned latest;
     eventExists               := fun _ => Returned false;
     gatewayText               := fun _ => Returned reply;
     JSON_parse_classification := parse_table;
     JSON_parse_translations   := fun _ => None;
     insertEvent               := fun h => Returned (Inserted (List.length h));
     insertTension             := fun _ => Returned tt;
     insertAlert               :=
       fun h => Returned (AlertFailed {| code := JStr (js "42501") |});
     sendTelegramAlert         := fun _ => Returned tt;
     proUsers                  := fun _ => Returned 0%nat;
     notifyProUsersViaTelegram := fun _ => Returned tt |}.

(** A world where the search itself throws. *)
Definition broken_world : Env :=
  {| fetchLatestNews           := fun _ => Thrown;
     latestTension             := fun _ => Thrown;
     eventExists               := fun _ => Thrown;
     gatewayText               := fun _ => Thrown;
     JSON_parse_classification := fun _ => None;
     JSON_parse_translations   := fun _ => None;
     insertEvent               := fun _ => Thrown;
     insertTension             := fun _ => Thrown;
     insertAlert               := fun _ => Thrown;
     sendTelegramAlert         := fun _ => Thrown;
     proUsers                  := fun _ => Thrown;
     notifyProUsersViaTelegram := fun _ => Thrown |}.

Definition idle : State := {| isRunning := false; history := [] |}.

(** The state an invocation finds while an earlier one is suspended on its
    search. *)
Definition busy : State :=
  {| isRunning := true;
     history := [Log Info (js "◈ News cycle started"); FetchLatestNews] |}.

Definition fresh : LoopVars :=
  {| currentTension := of_Z 75; alertsToFire := [] |}.

(** The translations [translateNewsTitle] falls back to. *)
Definition untranslated (t : jsstring) : Translations :=
  {| pt := t; es := t; ar := t; fa := t |}.

(** The row built for [headline] from the off-scale reply. *)
Definition offscale_row : EventRow :=
  eventRow headline offscale (untranslated (title headline))
    (calculateTensionDelta (js "military") (of_Z 42) (title headline)).

(** The row built for [headline] from the fallback classification. *)
Definition fallback_row : EventRow :=
  eventRow headline (fallbackClassification (title headline))
    (untranslated (title headline))
    (calculateTensionDelta (js "other") (of_Z 3) (title headline)).

(** [Number.MAX_VALUE]. *)
Definition MAX_VALUE : number := S754_finite false 9007199254740991 971.

(** A title with a high-tension and a de-escalation keyword. *)
Definition mixed_title : jsstring := js "ceasefire after missile strike".

End Examples.

(** * Further components *)

(** ** Tension levels ([tensionCalc.js]) *)

Module TensionLevel.

Record t := {
  level : jsstring;
  label : jsstring;
  color : jsstring;
}.

End TensionLevel.

Definition classifyTensionLevel (value : number) : TensionLevel.t :=
  if ge value (of_Z 90) then
    {| TensionLevel.level := js "critical";
       TensionLevel.label := js "CRÍTICO";
       TensionLevel.color := js "#ff2222" |}
  else if ge value (of_Z 75) then
    {| TensionLevel.level := js "high";
       TensionLevel.label := js "ELEVADO";
       TensionLevel.color := js "#ff6a00" |}
  else if ge value (of_Z 55) then
    {| TensionLevel.level := js "moderate";
       TensionLevel.label := js "MODERADO";
       TensionLevel.color := js "#ffb700" |}
  else if ge value (of_Z 35) then
    {| TensionLevel.level := js "low";
       TensionLevel.label := js "BAIXO";
       TensionLevel.color := js "#88cc44" |}
  else
    {| TensionLevel.level := js "stable";
       TensionLevel.label := js "ESTÁVEL";
       TensionLevel.color := js "#00ff88" |}.

(** The five levels, from the calmest to the most severe. *)
Definition LEVELS : list jsstring :=
  List.map js ["stable"; "low"; "moderate"; "high"; "critical"]%string.

(** The position of a level name in [LEVELS] (5 for any other string). *)
Fixpoint position (name : jsstring) (names : list jsstring) : nat :=
  match names with
  | [] => O
  | n :: rest => if JsString.eqb name n then O else S (position name rest)
  end.

Definition severityRank (t : TensionLevel.t) : nat :=
  position (TensionLevel.level t) LEVELS.

(** ** Request sanitizers ([sanitize.js]) *)

Module Sanitize.

Section WithNumber.

(** The [Number(value)] conversion of the language. *)
Variable Number : jsval -> number.

Definition sanitizeNumber (value : jsval) (min max defaultVal : number)
  : number :=
  let num := Number value in
  if isNaN num then defaultVal else Math_min (Math_max num min) max.

End WithNumber.



(** [Number] on the values that are not strings or objects. *)
Definition Number_of_primitive (v : jsval) : number :=
  match v with
  | JNum n => n
  | JNull => of_Z 0
  | JBool true => of_Z 1
  | JBool false => of_Z 0
  | _ => NaN
  end.

End Sanitize.

(** ** Notification channel ([telegram.js]) *)

Module Telegram.

(** The characters of the class [[_*[\]()~`>#+\-=|{}.!]]. *)
Definition RESERVED : jsstring := js "_*[]()~`>#+-=|{}.!".

Definition is_reserved (c : N) : bool := List.existsb (N.eqb c) RESERVED.

(** [(text || '').replace(/[...]/g, '\\$&')]: a backslash goes in front of
    every reserved character. *)
Definition escapeMarkdown (text : option jsstring) : jsstring :=
  List.flat_map (fun c => if is_reserved c then [92%N; c] else [c])
    (match text with Some t => t | None => [] end).

(** Reading an escaped text back: a backslash in front of a reserved
    character is dropped. *)
Fixpoint unescape (s : jsstring) : jsstring :=
  match s with
  | [] => []
  | a :: tl =>
      match tl with
      | c :: rest =>
          if (a =? 92)%N && is_reserved c then c :: unescape rest
          else a :: unescape tl
      | [] => [a]
      end
  end.

Record ProUser := {
  user_id                : nat;
  alert_telegram_enabled : bool;
  telegram_chat_id       : option jsstring;
}.

(** What the function does to the outside: a [sendMessage] request to a
    chat, or a log line. *)
Inductive step :=
  | SendMessage (chat_id text : jsstring)
  | Logged (l : level) (msg : jsstring).

(** The text sent to a subscriber. *)
Definition userText (alert : Alert) : jsstring :=
  js "🔴 *ALERTA CRÍTICO — CONFLICT WATCH*" ++ [10; 10; 42]%N
  ++ escapeMarkdown (Some (alert_title alert)) ++ [42; 10; 10]%N
  ++ escapeMarkdown (Some (alert_message alert)).

Section Notify.

(** Whether [TELEGRAM_BOT_TOKEN] is set, and how each request ends, given
    the steps up to and including it. *)
Variable TELEGRAM_BOT_TOKEN : bool.
Variable fetch : list step -> outcome unit.

(** One turn of the loop over the users. *)
Definition notifyUser (alert : Alert) (done : list step) (user : ProUser)
  : list step :=
  match alert_telegram_enabled user, telegram_chat_id user with
  | true, Some ((_ :: _) as chat) =>
      let sent := done ++ [SendMessage chat (userText alert)] in
      match fetch sent with
      | Returned _ => sent
      | Thrown => sent ++ [Logged Error (js "Telegram user notify error")]
      end
  | _, _ => done
  end.

Definition notifyProUsersViaTelegram (alert : Alert) (users : list ProUser)
  : list step :=
  if TELEGRAM_BOT_TOKEN then List.fold_left (notifyUser alert) users []
  else [].

End Notify.

(** The chats written to, in order. *)
Definition recipients (steps : list step) : list jsstring :=
  List.flat_map
    (fun s => match s with SendMessage chat _ => [chat] | _ => [] end)
    steps.

(** The chats of the users who enabled personal alerts and registered a
    chat. *)
Definition eligible (users : list ProUser) : list jsstring :=
  List.flat_map
    (fun u => match alert_telegram_enabled u, telegram_chat_id u with
              | true, Some ((_ :: _) as chat) => [chat]
              | _, _ => []
              end)
    users.

End Telegram.

(** ** Multi-source fetcher ([news.js]) *)

Module News.

Definition SEARCH_KEYWORDS : list jsstring :=
  List.map js
  [ "Iran USA conflict"; "Iran nuclear program"; "Iran sanctions";
    "Strait of Hormuz"; "Iran missile"; "IRGC"; "JCPOA nuclear deal"
  ]%string.

(** An article as a provider sends it, its properties read at the types of
    the providers' schema (strings); a missing or null property is
    [None]. *)
Record RawArticle := {
  raw_title       : option jsstring;
  raw_description : option jsstring;
  raw_url         : option jsstring;
  raw_source_name : option jsstring;
  raw_publishedAt : jsstring;
}.

(** How a request to a provider ends. *)
Inductive response :=
  | NetworkError
  | NotOk (status : Z)
  | InvalidJson
  | Body (status : option jsstring) (articles : option (list RawArticle)).

Inductive provider := NewsAPI | GNews.

Inductive step :=
  | Get (p : provider) (keyword : jsstring)
  | Logged (l : level) (msg : jsstring)
  | Slept (ms : Z).

(** The object built by [map], when it passes [filter(a => a.title &&
    a.url)]. *)
Definition toArticle (a : RawArticle) : option Article :=
  match raw_title a, raw_url a with
  | Some ((_ :: _) as t), Some ((_ :: _) as u) =>
      Some {| title        := t;
              description  := raw_description a;
              url          := u;
              source       := match raw_source_name a with
                              | Some ((_ :: _) as name) => name
                              | _ => js "Unknown"
                              end;
              published_at := raw_publishedAt a |}
  | _, _ => None
  end.

(** [(data.articles || []).map(...).filter(...)]. *)
Definition accepted (articles : option (list RawArticle)) : list Article :=
  List.flat_map
    (fun a => match toArticle a with Some x => [x] | None => [] end)
    (match articles with Some l => l | None => [] end).

Definition fetchFromNewsAPI (answer : response)
  : outcome (list Article) * list step :=
  match answer with
  | NetworkError => (Thrown, [])
  | NotOk _ => (Returned [], [Logged Warn (js "NewsAPI request failed")])
  | InvalidJson => (Thrown, [])
  | Body status articles =>
      match status with
      | Some s =>
          if JsString.eqb s (js "ok") then (Returned (accepted articles), [])
          else (Returned [], [])
      | None => (Returned [], [])
      end
  end.

Definition fetchFromGNews (answer : response)
  : outcome (list Article) * list step :=
  match answer with
  | NetworkError => (Thrown, [])
  | NotOk _ => (Returned [], [Logged Warn (js "GNews request failed")])
  | InvalidJson => (Thrown, [])
  | Body _ articles => (Returned (accepted articles), [])
  end.

(** [allArticles.has(url)] on the map, kept as the list of its values in
    insertion order. *)
Definition has (u : jsstring) (allArticles : list Article) : bool :=
  List.existsb (fun a => JsString.eqb (url a) u) allArticles.

(** The loop that adds a keyword's articles to the map. *)
Definition addAll (allArticles articles : list Article) : list Article :=
  List.fold_left
    (fun m a => if has (url a) m then m else m ++ [a])
    articles allArticles.

Section Fetch.

(** Whether each credential is set, and what each provider answers for a
    keyword. *)
Variables NEWS_API_KEY GNEWS_API_KEY : bool.
Variables newsapi gnews : jsstring -> response.

(** The two awaited fetches of the [try] block for one keyword. *)
Definition keywordArticles (keyword : jsstring)
  : outcome (list Article) * list step :=
  let first :=
    if NEWS_API_KEY then
      let '(r, logs) := fetchFromNewsAPI (newsapi keyword) in
      (r, Get NewsAPI keyword :: logs)
    else (Returned [], []) in
  match first with
  | (Thrown, steps) => (Thrown, steps)
  | (Returned articles, steps) =>
      if (Nat.eqb (List.length articles) 0) && GNEWS_API_KEY then
        let '(r, logs) := fetchFromGNews (gnews keyword) in
        (r, steps ++ Get GNews keyword :: logs)
      else (Returned articles, steps)
  end.

(** One turn of the loop over the keywords. *)
Definition fetchKeyword (state : list Article * list step)
  (keyword : jsstring) : list Article * list step :=
  let '(allArticles, done) := state in
  match keywordArticles keyword with
  | (Returned articles, steps) =>
      (addAll allArticles articles, done ++ steps ++ [Slept 300])
  | (Thrown, steps) =>
      (allArticles,
       done ++ steps ++ [Logged Error (js "fetchLatestNews error")])
  end.

Definition fetchOver (keywords : list jsstring)
  : list Article * list step :=
  let '(allArticles, done) :=
    List.fold_left fetchKeyword keywords ([], []) in
  (allArticles, done ++ [Logged Info (js "News fetched")]).

Definition fetchLatestNews : list Article * list step :=
  fetchOver SEARCH_KEYWORDS.

(** What a keyword adds when its fetches return, nothing when one
    throws. *)
Definition contribution (keyword : jsstring) : list Article :=
  match fst (keywordArticles keyword) with
  | Returned articles => articles
  | Thrown => []
  end.

End Fetch.

(** The first article with a given URL. *)
Definition firstWithUrl (u : jsstring) (articles : list Article)
  : option Article :=
  List.find (fun a => JsString.eqb (url a) u) articles.

End News.

(** ** Kinds of calls and shapes of histories *)

(** The calls the processing of an article can make once the lookup has
    answered. *)
Definition after_lookup_call (c : call) : bool :=
  match c with
  | Log _ _ | GatewayClassify _ _ | GatewayTranslate _
  | InsertEvent _ | Sleep _ => true
  | _ => false
  end.

(** The calls the processing of one article can make. *)
Definition article_call (c : call) : bool :=
  match c with
  | SelectEventByUrl _ => true
  | _ => after_lookup_call c
  end.

(** The calls that reach the notification channel or its subscribers. *)
Definition channel_call (c : call) : bool :=
  match c with
  | SendTelegramAlert _ _ _ | SelectProUsers
  | NotifyProUsersViaTelegram _ _ => true
  | _ => false
  end.

(** The calls that store or send an alert. *)
Definition alert_effect (c : call) : bool :=
  match c with
  | InsertAlert _ _ _ _ _ => true
  | _ => channel_call c
  end.

(** The calls the dispatch of one alert can make. *)
Definition alert_call (c : call) : bool :=
  match c with
  | Log _ _ => true
  | _ => alert_effect c
  end.

(** The URLs looked up in the store, in order. *)
Definition lookups (l : trace) : list jsstring :=
  List.flat_map
    (fun c => match c with SelectEventByUrl u => [u] | _ => [] end) l.

(** A tension value the store's range accepts, or NaN. *)
Definition in_range_or_nan (v : number) : Prop :=
  in_0_100 v = true \/ v = NaN.

(** Every tension sample written is in the range or NaN. *)
Definition sample_in_range (c : call) : Prop :=
  match c with
  | InsertTension v _ => in_range_or_nan v
  | _ => True
  end.

(** What a batch whose articles are all passed over may do: look up, log,
    and write the tension it started from. *)
Definition passes_over (start : number) (c : call) : Prop :=
  match c with
  | Log _ _ | SelectEventByUrl _ => True
  | InsertTension v _ => v = start
  | _ => False
  end.

(** A computation that never throws. *)
Definition never_throws {A} (m : M A) : Prop :=
  forall st, exists a, fst (m st) = Returned a.

(** What one turn of the article loop can do to the loop's variables:
    nothing, or one application of a delta to the tension with at most one
    alert queued. *)
Definition article_step (vars vars' : LoopVars) : Prop :=
  vars' = vars \/
  exists delta,
    currentTension vars'
    = applyTensionDelta (currentTension vars) delta /\
    (alertsToFire vars' = alertsToFire vars \/
     exists a, alertsToFire vars' = alertsToFire vars ++ [a]).

(** ** More examples *)

Module Samples.

(** A provider that answers every keyword with the same single article,
    sent without a source name. *)
Definition wire (keyword : jsstring) : News.response :=
  News.Body (Some (js "ok"))
    (Some [ {| News.raw_title       := Some (js "Talks resume");
               News.raw_description := None;
               News.raw_url         := Some (js "https://news.example/2");
               News.raw_source_name := None;
               News.raw_publishedAt := js "2026-01-02T00:00:00Z" |} ]).

(** A provider that cannot be reached. *)
Definition unreachable (keyword : jsstring) : News.response :=
  News.NetworkError.

(** The article [wire]'s answer is turned into. *)
Definition relayed : Article :=
  {| title        := js "Talks resume";
     description  := None;
     url          := js "https://news.example/2";
     source       := js "Unknown";
     published_at := js "2026-01-02T00:00:00Z" |}.

(** An alert queued for the example headline. *)
Definition queued : AlertData :=
  {| event   := {| id := 1; saved_row := Examples.fallback_row |};
     score   := of_Z 9;
     summary := js "x" |}.

End Samples.

(** Membership in an explicit list. *)
Ltac in_list := vm_compute; repeat (first [left; reflexivity | right]).

(** * Properties of the orchestrator *)

Section OrchestratorFacts.

Variable env : Env.

Lemma record_history (c : call) (st : State) :
  history (record c st) = history st ++ [c].
Proof. reflexivity. Qed.

(** The negation gives a boolean, and a boolean is never strictly equal to
    a string. *)
Lemma insertError_check_false (insertError : StoreError) :
  insertError_check insertError = false.
Proof. reflexivity. Qed.

(** A [try] whose handler only logs cannot throw. *)
Lemma try_catch_logger_returns (body : M unit) (l : level) (msg : string)
  (st : State) :
  fst (try_catch body (logger l msg) st) = Returned tt.
Proof.
  unfold try_catch. destruct (body st) as [[[]|] st']; reflexivity.
Qed.

(** (C2) Whatever error object the insert answers with, the test
    [!insertError.code === '23505'] is false, the "Insert error" line is
    never logged, and the loop goes on with its variables and the history
    untouched: a duplicate key and any other failure are handled alike. *)
Theorem insert_errors_all_ignored (insertError : StoreError)
  (classification : Classification) (row : EventRow) (delta : number)
  (vars : LoopVars) (st : State) :
  insertError_check insertError = false /\
  afterInsert classification row delta vars (InsertFailed insertError) st
  = (Returned vars, st).
Proof.
  split; [apply insertError_check_false|].
  unfold afterInsert. rewrite insertError_check_false. reflexivity.
Qed.

(** (C3) An invocation that finds the guard set logs the warning and
    returns: the history grows by that one line, so no search, no
    classification, no insert and no alert call is made, and the guard stays
    with the invocation that holds it. *)
Theorem running_cycle_is_skipped (st : State) :
  isRunning st = true ->
  runNewsCycle env st
  = (Returned tt,
     {| isRunning := true;
        history := history st
                   ++ [Log Warn (js "News cron already running — skipping")]
     |}).
Proof.
  intros Hrun. unfold runNewsCycle, bind, get_isRunning.
  rewrite Hrun. unfold logger, emit, record. rewrite Hrun. reflexivity.
Qed.

(** (C4) An invocation that takes the guard gives it back: whatever the
    collaborators answer or throw (no article, a normal batch, an exception
    out of the search, the tension query or the tension insert), the call
    returns normally and the flag is false afterwards. *)
Theorem guard_is_released (st : State) :
  isRunning st = false ->
  fst (runNewsCycle env st) = Returned tt /\
  isRunning (snd (runNewsCycle env st)) = false.
Proof.
  intros Hidle. unfold runNewsCycle, bind, get_isRunning. rewrite Hidle.
  cbv beta iota delta [set_isRunning logger emit try_finally].
  set (started := record _ _).
  pose proof (try_catch_logger_returns (cycleBody env) Error
                "News cycle failed" started) as Hreturns.
  unfold logger, emit in Hreturns.
  destruct (try_catch (cycleBody env) _ started) as [r st'].
  simpl in Hreturns. subst r. split; reflexivity.
Qed.

(** (C5) Once the insert has succeeded, the event is queued for alerting
    exactly when the classification's flag is set, or [shouldTriggerAlert]
    holds of the article with the classification's score, or that score is
    at least 8; the tension is then updated and the loop goes on. *)
Theorem alert_queued_iff_three_way (article : Article)
  (classification : Classification) (translations : Translations)
  (delta : number) (vars : LoopVars) (event_id : nat) (st : State) :
  let row := eventRow article classification translations delta in
  let saved := {| id := event_id; saved_row := row |} in
  let wanted :=
    is_critical classification
    || shouldTriggerAlert (title article) (description article)
         (impact_score classification)
    || ge (impact_score classification) (of_Z 8) in
  needsAlert saved classification = wanted /\
  exists st',
    afterInsert classification row delta vars (Inserted event_id) st
    = (Returned
         {| currentTension := applyTensionDelta (currentTension vars) delta;
            alertsToFire :=
              if wanted
              then alertsToFire vars ++
                   [ {| event := saved;
                        score := impact_score classification;
                        summary := summary_pt classification |} ]
              else alertsToFire vars |}, st').
Proof.
  intros row saved wanted.
  assert (Hw : needsAlert saved classification = wanted) by reflexivity.
  split; [exact Hw|].
  unfold afterInsert. fold saved. rewrite Hw.
  eexists. reflexivity.
Qed.

(** (C10) When the store has no tension sample, or its latest value is
    falsy (a zero or NaN), the batch runs from 75, which is not the baseline
    60 of the mean reversion. *)
Theorem cycle_starts_at_75 (st : State) (articles : list Article)
  (latest : option number) :
  let st1 := record FetchLatestNews st in
  let st2 := record SelectLatestTension st1 in
  fetchLatestNews env (history st1) = Returned articles ->
  articles <> [] ->
  latestTension env (history st2) = Returned latest ->
  (latest = None \/
   exists v, latest = Some v /\ JsNumber.truthy v = false) ->
  startingTension latest = of_Z 75 /\
  startingTension latest <> BASELINE /\
  cycleBody env st = processBatch env articles (of_Z 75) st2.
Proof.
  intros st1 st2 Hfetch Hne Hlatest Hfalsy.
  assert (Hstart : startingTension latest = of_Z 75).
  { destruct Hfalsy as [->|[v [-> Hv]]]; [reflexivity|].
    unfold startingTension. rewrite Hv. reflexivity. }
  split; [exact Hstart|].
  split; [rewrite Hstart; discriminate|].
  unfold cycleBody, bind, await. fold st1. rewrite Hfetch.
  destruct articles as [|a rest]; [congruence|].
  fold st2. rewrite Hlatest, Hstart. reflexivity.
Qed.

End OrchestratorFacts.

(** ** Rules of the logic of histories *)

Section HistoryLogic.

Variable P : call -> Prop.

Lemma emits_ret {A} (a : A) (Q : A -> Prop) : Q a -> emits (ret a) P Q.
Proof.
  intros Ha st. exists []. simpl. rewrite app_nil_r.
  split; [reflexivity|]. split; [constructor|].
  intros b [= <-]. exact Ha.
Qed.

Lemma emits_throw {A} (Q : A -> Prop) : emits (@throw A) P Q.
Proof.
  intros st. exists []. simpl. rewrite app_nil_r.
  split; [reflexivity|]. split; [constructor|]. discriminate.
Qed.

Lemma emits_bind {A B} (m : M A) (k : A -> M B)
  (Q : A -> Prop) (R : B -> Prop) :
  emits m P Q -> (forall a, Q a -> emits (k a) P R) -> emits (bind m k) P R.
Proof.
  intros Hm Hk st. unfold bind.
  destruct (Hm st) as (l1 & Hh1 & Hp1 & Hq1).
  destruct (m st) as [[a|] st1]; simpl in *.
  - destruct (Hk a (Hq1 a eq_refl) st1) as (l2 & Hh2 & Hp2 & Hq2).
    exists (l1 ++ l2). rewrite Hh2, Hh1, app_assoc.
    split; [reflexivity|]. split; [|exact Hq2].
    apply Forall_app; split; assumption.
  - exists l1. split; [exact Hh1|]. split; [exact Hp1|]. discriminate.
Qed.

Lemma emits_try_catch {A} (body handler : M A) (Q : A -> Prop) :
  emits body P Q -> emits handler P Q -> emits (try_catch body handler) P Q.
Proof.
  intros Hb Hh st. unfold try_catch.
  destruct (Hb st) as (l1 & Hh1 & Hp1 & Hq1).
  destruct (body st) as [[a|] st1]; simpl in *.
  - exists l1. split; [exact Hh1|]. split; [exact Hp1|].
    intros b [= <-]. apply Hq1. reflexivity.
  - destruct (Hh st1) as (l2 & Hh2 & Hp2 & Hq2).
    exists (l1 ++ l2). rewrite Hh2, Hh1, app_assoc.
    split; [reflexivity|]. split; [|exact Hq2].
    apply Forall_app; split; assumption.
Qed.

Lemma emits_try_finally {A} (body : M A) (cleanup : M unit)
  (Q : A -> Prop) :
  emits body P Q -> emits cleanup P (fun _ => True) ->
  emits (try_finally body cleanup) P Q.
Proof.
  intros Hb Hc st. unfold try_finally.
  destruct (Hb st) as (l1 & Hh1 & Hp1 & Hq1).
  destruct (body st) as [r st1]; simpl in *.
  destruct (Hc st1) as (l2 & Hh2 & Hp2 & _).
  exists (l1 ++ l2).
  destruct (cleanup st1) as [[[]|] st2]; simpl in *;
    rewrite Hh2, Hh1, app_assoc;
    (split; [reflexivity|]);
    (split; [apply Forall_app; split; assumption|]);
    [exact Hq1 | discriminate].
Qed.

Lemma emits_await {A} (c : call) (answer : trace -> outcome A)
  (Q : A -> Prop) :
  P c -> (forall h a, answer h = Returned a -> Q a) ->
  emits (await c answer) P Q.
Proof.
  intros Hc Ha st. exists [c]. unfold await. simpl.
  split; [reflexivity|]. split; [repeat constructor; exact Hc|].
  intros a Hr. exact (Ha _ _ Hr).
Qed.

Lemma emits_emit (c : call) (Q : unit -> Prop) :
  P c -> Q tt -> emits (emit c) P Q.
Proof.
  intros Hc Hq st. exists [c]. simpl.
  split; [reflexivity|]. split; [repeat constructor; exact Hc|].
  intros [] _. exact Hq.
Qed.

Lemma emits_state_only {A} (m : M A) (Q : A -> Prop) :
  (forall st, history (snd (m st)) = history st) ->
  (forall st a, fst (m st) = Returned a -> Q a) ->
  emits m P Q.
Proof.
  intros Hh Hq st. exists []. rewrite app_nil_r.
  split; [apply Hh|]. split; [constructor | apply Hq].
Qed.

Lemma emits_for_of {A S} (xs : list A) (body : A -> S -> M S)
  (I : S -> Prop) :
  (forall x s, I s -> emits (body x s) P I) ->
  forall s, I s -> emits (for_of xs body s) P I.
Proof.
  intros Hbody. induction xs as [|x xs IH]; intros s Hs; simpl.
  - apply emits_ret. exact Hs.
  - eapply emits_bind; [apply Hbody; exact Hs|].
    intros s' Hs'. apply IH. exact Hs'.
Qed.

End HistoryLogic.

(** ** The impact score on its way through the cycle *)

Section ScoreProvenance.

Variable env : Env.

Lemma logger_emits (l : level) (msg : string) :
  emits (logger l msg) (forwards_score env) (fun _ => True).
Proof. apply emits_emit; exact I. Qed.

Lemma classifyNewsEvent_emits (t : jsstring) (d : option jsstring) :
  emits (classifyNewsEvent env t d) (forwards_score env) (classified env t).
Proof.
  unfold classifyNewsEvent. apply emits_try_catch.
  - eapply emits_bind with
      (Q := fun text => exists h, gatewayText env h = Returned text).
    + apply emits_await; [exact I|]. intros h a Ha. exists h. exact Ha.
    + intros text [h Hh].
      destruct (JSON_parse_classification env (cleaned text)) as [c|] eqn:Hc.
      * apply emits_ret. right. exists h, text. split; assumption.
      * apply emits_throw.
  - eapply emits_bind; [apply logger_emits|].
    intros _ _. apply emits_ret. left. reflexivity.
Qed.

Lemma translateNewsTitle_emits (t : jsstring) :
  emits (translateNewsTitle env t) (forwards_score env) (fun _ => True).
Proof.
  unfold translateNewsTitle. apply emits_try_catch.
  - eapply emits_bind with (Q := fun _ => True).
    + apply emits_await; [exact I|]. intros; exact I.
    + intros text _.
      destruct (JSON_parse_translations env (cleaned text));
        [apply emits_ret; exact I | apply emits_throw].
  - eapply emits_bind; [apply logger_emits|].
    intros _ _. apply emits_ret. exact I.
Qed.

Lemma afterInsert_emits (c : Classification) (row : EventRow)
  (delta : number) (vars : LoopVars) (reply : InsertReply) :
  emits (afterInsert c row delta vars reply) (forwards_score env) (fun _ => True).
Proof.
  unfold afterInsert. destruct reply as [event_id|insertError].
  - eapply emits_bind; [apply logger_emits|]. intros _ _.
    eapply emits_bind with (Q := fun _ => True);
      [apply emits_emit; exact I|].
    intros _ _. apply emits_ret. exact I.
  - eapply emits_bind with (Q := fun _ => True).
    + destruct (insertError_check insertError);
        [apply logger_emits | apply emits_ret; exact I].
    + intros _ _. apply emits_ret. exact I.
Qed.

Lemma processArticle_emits (article : Article) (vars : LoopVars) :
  emits (processArticle env article vars) (forwards_score env) (fun _ => True).
Proof.
  unfold processArticle. apply emits_try_catch.
  - eapply emits_bind with (Q := fun _ => True).
    { apply emits_await; [exact I|]. intros; exact I. }
    intros [|] _; [apply emits_ret; exact I|].
    eapply emits_bind; [apply classifyNewsEvent_emits|].
    intros c Hc.
    eapply emits_bind; [apply translateNewsTitle_emits|].
    intros tr _. cbv zeta.
    eapply emits_bind with (Q := fun _ => True).
    + apply emits_await; [|intros; exact I].
      simpl. split; [reflexivity|].
      destruct Hc as [->|Hc]; [left; reflexivity|].
      right. exists c. split; [exact Hc | reflexivity].
    + intros reply _. apply afterInsert_emits.
  - eapply emits_bind; [apply logger_emits|].
    intros _ _. apply emits_ret. exact I.
Qed.

Lemma processAlert_emits (alertData : AlertData) :
  emits (processAlert env alertData) (forwards_score env) (fun _ => True).
Proof.
  unfold processAlert. apply emits_try_catch; [|apply logger_emits].
  cbv zeta. eapply emits_bind with (Q := fun _ => True).
  - unfold createAlert. eapply emits_bind with (Q := fun _ => True).
    + apply emits_await; [exact I|]. intros; exact I.
    + intros [data|err] _; [apply emits_ret; exact I|].
      eapply emits_bind; [apply logger_emits|].
      intros _ _. apply emits_ret. exact I.
  - intros [alert|] _; [|apply emits_ret; exact I].
    eapply emits_bind; [apply logger_emits|]. intros _ _.
    eapply emits_bind with (Q := fun _ => True).
    { apply emits_await; [exact I|]. intros; exact I. }
    intros _ _.
    eapply emits_bind with (Q := fun _ => True).
    { apply emits_await; [exact I|]. intros; exact I. }
    intros [|n] _; [apply emits_ret; exact I|].
    apply emits_await; [exact I|]. intros; exact I.
Qed.

Lemma processBatch_emits (articles : list Article) (start : number) :
  emits (processBatch env articles start) (forwards_score env) (fun _ => True).
Proof.
  unfold processBatch.
  eapply emits_bind with (Q := fun _ => True).
  { apply emits_for_of with (I := fun _ => True); [|exact I].
    intros a vars _. apply processArticle_emits. }
  intros vars _.
  eapply emits_bind with (Q := fun _ => True).
  { apply emits_await; [exact I|]. intros; exact I. }
  intros _ _.
  eapply emits_bind; [apply logger_emits|]. intros _ _.
  eapply emits_bind with (Q := fun _ => True); [|intros; apply logger_emits].
  apply emits_for_of with (I := fun _ => True); [|exact I].
  intros a [] _. apply processAlert_emits.
Qed.

Lemma cycleBody_emits : emits (cycleBody env) (forwards_score env) (fun _ => True).
Proof.
  unfold cycleBody.
  eapply emits_bind with (Q := fun _ => True).
  { apply emits_await; [exact I|]. intros; exact I. }
  intros [|a rest] _; [apply logger_emits|].
  eapply emits_bind with (Q := fun _ => True).
  { apply emits_await; [exact I|]. intros; exact I. }
  intros latest _. apply processBatch_emits.
Qed.

Lemma runNewsCycle_emits : emits (runNewsCycle env) (forwards_score env) (fun _ => True).
Proof.
  unfold runNewsCycle.
  eapply emits_bind with (Q := fun _ => True).
  { apply emits_state_only; intros; [reflexivity | exact I]. }
  intros [|] _; [apply logger_emits|].
  eapply emits_bind with (Q := fun _ => True).
  { apply emits_state_only; intros; [reflexivity | exact I]. }
  intros _ _.
  eapply emits_bind; [apply logger_emits|]. intros _ _.
  apply emits_try_finally.
  - apply emits_try_catch; [apply cycleBody_emits | apply logger_emits].
  - apply emits_state_only; intros; [reflexivity | exact I].
Qed.

(** (C1, as the code has it) Every news event a cycle hands to the store
    carries an impact score that is either the fallback's 3 or the score of
    a reply of the reasoning service exactly as [JSON.parse] returned it,
    and its tension delta is [calculateTensionDelta] at that same score:
    the orchestrator forwards the score without a range check or a
    clamp. *)
Theorem impact_score_forwarded_as_received (st : State) :
  exists l,
    history (snd (runNewsCycle env st)) = history st ++ l /\
    forall row, In (InsertEvent row) l ->
      row_tension_delta row
      = calculateTensionDelta (row_category row) (row_impact_score row)
          (row_title row) /\
      (row_impact_score row = of_Z 3 \/
       exists c, parsed_reply env c /\ row_impact_score row = impact_score c).
Proof.
  destruct (runNewsCycle_emits st) as (l & Hh & Hp & _).
  exists l. split; [exact Hh|].
  intros row Hin. rewrite Forall_forall in Hp.
  exact (Hp _ Hin).
Qed.

End ScoreProvenance.

(** ** The fallback classification *)

Section Fallback.

Variable env : Env.

Lemma classifyNewsEvent_malformed (t : jsstring) (d : option jsstring)
  (st : State) (text : jsstring) :
  gatewayText env (history (record (GatewayClassify t d) st))
  = Returned text ->
  JSON_parse_classification env (cleaned text) = None ->
  classifyNewsEvent env t d st
  = (Returned (fallbackClassification t),
     record (Log Error (js "classifyNewsEvent parse error"))
       (record (GatewayClassify t d) st)).
Proof.
  intros Htext Hparse.
  unfold classifyNewsEvent, try_catch, bind, await.
  rewrite Htext, Hparse. reflexivity.
Qed.

Lemma translateNewsTitle_returns (t : jsstring) (st : State) :
  exists translations l,
    translateNewsTitle env t st
    = (Returned translations,
       {| isRunning := isRunning st; history := history st ++ l |}).
Proof.
  unfold translateNewsTitle, try_catch, bind, await.
  destruct (gatewayText env _) as [text|].
  - destruct (JSON_parse_translations env (cleaned text)) as [tr|].
    + exists tr, [GatewayTranslate t]. reflexivity.
    + eexists _, [GatewayTranslate t; Log Error (js "translateNewsTitle error")].
      cbv [throw logger emit ret record history isRunning].
      rewrite <- app_assoc. reflexivity.
  - eexists _, [GatewayTranslate t; Log Error (js "translateNewsTitle error")].
    cbv [throw logger emit ret record history isRunning].
    rewrite <- app_assoc. reflexivity.
Qed.

Lemma afterInsert_keeps_history (c : Classification) (row : EventRow)
  (delta : number) (vars : LoopVars) (reply : InsertReply) (x : call)
  (st : State) :
  In x (history st) ->
  In x (history (snd (afterInsert c row delta vars reply st))).
Proof.
  intros Hin. unfold afterInsert. destruct reply as [event_id|insertError].
  - cbv [bind logger emit ret record history isRunning snd].
    apply in_or_app; left. apply in_or_app; left. exact Hin.
  - rewrite insertError_check_false. exact Hin.
Qed.

(** (C9, as the code has it) When the reply does not parse,
    [classifyNewsEvent] logs and returns the fallback instead of throwing,
    and the article is handed to the store with that classification:
    category ['other'], score 3, the title cut to 100 code units as summary,
    no keywords, and [is_critical] true exactly when the title and
    description contain one of the alert keywords. *)
Theorem malformed_reply_persists_fallback (article : Article)
  (vars : LoopVars) (st : State) (text : jsstring) :
  let st1 := record (SelectEventByUrl (url article)) st in
  let st2 :=
    record (GatewayClassify (title article) (description article)) st1 in
  let fallback := fallbackClassification (title article) in
  eventExists env (history st1) = Returned false ->
  gatewayText env (history st2) = Returned text ->
  JSON_parse_classification env (cleaned text) = None ->
  classifyNewsEvent env (title article) (description article) st1
  = (Returned fallback,
     record (Log Error (js "classifyNewsEvent parse error")) st2) /\
  exists translations,
    let row :=
      eventRow article fallback translations
        (calculateTensionDelta (js "other") (of_Z 3) (title article)) in
    In (InsertEvent row)
       (history (snd (processArticle env article vars st))) /\
    row_category row = js "other" /\
    row_impact_score row = of_Z 3 /\
    row_ai_summary row = slice0 100 (title article) /\
    row_keywords row = [] /\
    row_is_critical row
    = some (fun kw =>
              includes kw
                (toLowerCase
                   (alertText (title article) (description article))))
        ALERT_KEYWORDS.
Proof.
  intros st1 st2 fallback Hexists Htext Hparse.
  pose proof (@classifyNewsEvent_malformed (title article)
                (description article) st1 text Htext Hparse) as Hclassify.
  fold st2 fallback in Hclassify.
  split; [exact Hclassify|].
  set (st3 := record (Log Error (js "classifyNewsEvent parse error")) st2)
    in *.
  destruct (translateNewsTitle_returns (title article) st3)
    as (translations & l & Htranslate).
  exists translations. cbv zeta.
  split; [|repeat split].
  unfold processArticle, try_catch, bind.
  unfold await at 1. fold st1. rewrite Hexists.
  rewrite Hclassify, Htranslate.
  unfold await.
  set (row := eventRow article fallback translations _).
  set (st5 := record (InsertEvent row) _).
  assert (Hin : In (InsertEvent row) (history st5)).
  { unfold st5. rewrite record_history. apply in_or_app. right. left.
    reflexivity. }
  destruct (insertEvent env (history st5)) as [reply|].
  - pose proof (@afterInsert_keeps_history fallback row
                  (calculateTensionDelta (category fallback)
                     (impact_score fallback) (title article))
                  vars reply (InsertEvent row) st5 Hin) as Hkept.
    destruct (afterInsert _ _ _ _ reply st5) as [[v|] st6];
      [exact Hkept|].
    cbv [logger emit ret record history isRunning snd bind].
    apply in_or_app; left. exact Hkept.
  - cbv [logger emit ret record history isRunning snd].
    apply in_or_app; left. exact Hin.
Qed.

End Fallback.

(** * Properties of the number operations *)

Section RoundingSigns.

Variables prec emax : Z.

Lemma shr_1_nonneg (mrs : shr_record) :
  (0 <= shr_m mrs)%Z -> (0 <= shr_m (shr_1 mrs))%Z.
Proof.
  destruct mrs as [m r s]. simpl.
  destruct m as [|[q|q|]|q]; simpl; lia.
Qed.

Lemma iter_pos_shr_1_nonneg (n : positive) :
  forall mrs, (0 <= shr_m mrs)%Z -> (0 <= shr_m (iter_pos shr_1 n mrs))%Z.
Proof.
  induction n as [n IH|n IH|]; intros mrs Hm; simpl.
  - apply IH, IH, shr_1_nonneg, Hm.
  - apply IH, IH, Hm.
  - apply shr_1_nonneg, Hm.
Qed.

Lemma shr_nonneg (mrs : shr_record) (e n : Z) :
  (0 <= shr_m mrs)%Z -> (0 <= shr_m (fst (shr mrs e n)))%Z.
Proof.
  intros Hm. destruct n; simpl; try exact Hm.
  apply iter_pos_shr_1_nonneg, Hm.
Qed.

Lemma shr_record_of_loc_m (m : Z) (l : location) :
  shr_m (shr_record_of_loc m l) = m.
Proof. destruct l as [|[| |]]; reflexivity. Qed.

Lemma shr_fexp_nonneg (m e : Z) (l : location) :
  (0 <= m)%Z -> (0 <= shr_m (fst (shr_fexp prec emax m e l)))%Z.
Proof.
  intros Hm. unfold shr_fexp. apply shr_nonneg.
  rewrite shr_record_of_loc_m. exact Hm.
Qed.

Lemma round_nearest_even_nonneg (m : Z) (l : location) :
  (0 <= m)%Z -> (0 <= round_nearest_even m l)%Z.
Proof.
  intros Hm. destruct l as [|[| |]]; simpl; try lia.
  destruct (Z.even m); lia.
Qed.

(** Rounding a non-negative mantissa keeps the sign it is given: it never
    produces NaN. *)
Lemma binary_round_aux_signed (s : bool) (m e : Z) (l : location) :
  (0 <= m)%Z -> signed s (binary_round_aux prec emax s m e l).
Proof.
  intros Hm. unfold binary_round_aux.
  pose proof (shr_fexp_nonneg e l Hm) as H1.
  destruct (shr_fexp prec emax m e l) as [mrs' e'].
  simpl in H1.
  pose proof (shr_fexp_nonneg e' loc_Exact
                (round_nearest_even_nonneg (loc_of_shr_record mrs') H1))
    as H2.
  destruct (shr_fexp prec emax _ e' loc_Exact) as [mrs'' e''].
  simpl in H2.
  destruct (shr_m mrs'') as [|q|q]; simpl; try reflexivity; try lia.
  destruct (e'' <=? emax - prec)%Z; reflexivity.
Qed.

Lemma binary_round_signed (s : bool) (m : positive) (e : Z) :
  signed s (binary_round prec emax s m e).
Proof.
  unfold binary_round.
  destruct (shl_align m e _) as [mz ez].
  apply binary_round_aux_signed. lia.
Qed.

Lemma binary_normalize_not_nan (m e : Z) (szero : bool) :
  binary_normalize prec emax m e szero <> S754_nan.
Proof.
  destruct m as [|q|q]; simpl; [discriminate| |].
  - pose proof (binary_round_signed false q e) as H.
    intros Heq. rewrite Heq in H. exact H.
  - pose proof (binary_round_signed true q e) as H.
    intros Heq. rewrite Heq in H. exact H.
Qed.

Lemma SFmul_signed (sx sy : bool) (x : spec_float) (my : positive) (ey : Z) :
  signed sx x ->
  signed (xorb sx sy) (SFmul prec emax x (S754_finite sy my ey)).
Proof.
  destruct x as [s|s| |s m e]; simpl; intros Hx; subst;
    try reflexivity; try contradiction.
  apply binary_round_aux_signed. lia.
Qed.

Lemma SFdiv_signed (sx sy : bool) (x : spec_float) (my : positive) (ey : Z) :
  signed sx x ->
  signed (xorb sx sy) (SFdiv prec emax x (S754_finite sy my ey)).
Proof.
  destruct x as [s|s| |s m e]; simpl; intros Hx; subst;
    try reflexivity; try contradiction.
  unfold SFdiv_core_binary.
  set (m' := match _ with Z.pos _ => _ | Z0 => _ | Z.neg _ => _ end).
  assert (Hm' : (0 <= m')%Z).
  { unfold m'. destruct (_ - _ - _)%Z; try lia.
    apply Z.shiftl_nonneg. lia. }
  pose proof (Z.div_pos m' (Z.pos my) Hm' eq_refl) as Hq.
  unfold Z.div in Hq.
  destruct (Z.div_eucl m' (Z.pos my)) as [q r].
  apply binary_round_aux_signed. exact Hq.
Qed.

Lemma SFadd_finite_not_nan (x y : spec_float) :
  x <> S754_nan -> y <> S754_nan ->
  (forall sx sy, x = S754_infinity sx -> y = S754_infinity sy -> sx = sy) ->
  SFadd prec emax x y <> S754_nan.
Proof.
  intros Hx Hy Hinf.
  destruct x as [sx|sx| |sx mx ex]; destruct y as [sy|sy| |sy my ey];
    simpl; try congruence.
  - destruct sx, sy; discriminate.
  - rewrite (Hinf sx sy eq_refl eq_refl). destruct sy; discriminate.
  - apply binary_normalize_not_nan.
Qed.

Lemma SFsub_finite_not_nan (x y : spec_float) :
  x <> S754_nan -> y <> S754_nan ->
  (forall sx sy, x = S754_infinity sx -> y = S754_infinity sy -> sx <> sy) ->
  SFsub prec emax x y <> S754_nan.
Proof.
  intros Hx Hy Hinf.
  destruct x as [sx|sx| |sx mx ex]; destruct y as [sy|sy| |sy my ey];
    simpl; try congruence.
  - destruct sx, sy; discriminate.
  - specialize (Hinf sx sy eq_refl eq_refl). destruct sx, sy; congruence.
  - apply binary_normalize_not_nan.
Qed.

End RoundingSigns.

Section NumberFacts.

Lemma signed_not_nan (s : bool) (x : number) : signed s x -> isNaN x = false.
Proof. destruct x; simpl; intros H; try reflexivity; contradiction. Qed.

Lemma not_nan_signed (x : number) :
  isNaN x = false -> exists s, signed s x.
Proof.
  destruct x as [s|s| |s m e]; simpl; intros H; try discriminate;
    exists s; reflexivity.
Qed.

Lemma isNaN_false_iff (x : number) : isNaN x = false <-> x <> S754_nan.
Proof. destruct x; simpl; split; congruence. Qed.

Lemma of_Z_signed (z : Z) :
  z <> 0%Z -> signed (z <? 0)%Z (of_Z z).
Proof.
  intros Hz. unfold of_Z. destruct z as [|q|q]; simpl; [congruence| |];
    apply binary_round_signed.
Qed.

(** [Math.round] keeps the sign bit. *)
Lemma Math_round_signed (s : bool) (x : number) :
  signed s x -> signed s (Math_round x).
Proof.
  destruct x as [s'|s'| |s' m e]; intros Hx; try exact Hx.
  unfold signed in Hx. subst s'. unfold Math_round.
  destruct (0 <=? e)%Z eqn:He; [exact eq_refl|].
  apply Z.leb_gt in He. cbv zeta.
  set (d := (- e)%Z).
  assert (Hd : (0 < d)%Z) by (unfold d; lia).
  assert (Hpow : (0 < 2 ^ d)%Z) by (apply Z.pow_pos_nonneg; lia).
  assert (Hpow' : (2 ^ (d + 1) = 2 * 2 ^ d)%Z)
    by (rewrite Z.pow_add_r by lia; lia).
  set (n := ((2 * (if s then Z.neg m else Z.pos m) + 2 ^ d)
             / 2 ^ (d + 1))%Z).
  destruct (n =? 0)%Z eqn:Hn; [exact eq_refl|].
  apply Z.eqb_neq in Hn.
  assert (Hsign : (n <? 0)%Z = s).
  { destruct s.
    - apply Z.ltb_lt.
      assert (n < 1)%Z; [|lia].
      unfold n. apply Z.div_lt_upper_bound; lia.
    - apply Z.ltb_ge. unfold n. apply Z.div_pos; lia. }
  rewrite <- Hsign. apply of_Z_signed. exact Hn.
Qed.

Lemma of_Z_100 : of_Z 100 = S754_finite false 7036874417766400 (-46).
Proof. reflexivity. Qed.

Lemma of_Z_0 : of_Z 0 = S754_zero false.
Proof. reflexivity. Qed.

(** Rounding to two decimals keeps the sign bit. *)
Lemma round2_signed (s : bool) (x : number) :
  signed s x -> signed s (round2 x).
Proof.
  intros Hx. unfold round2. rewrite of_Z_100.
  pose proof (@SFmul_signed JsNumber.prec JsNumber.emax s false _
                7036874417766400 (-46) Hx) as Hmul.
  rewrite xorb_false_r in Hmul. apply Math_round_signed in Hmul.
  pose proof (@SFdiv_signed JsNumber.prec JsNumber.emax s false _
                7036874417766400 (-46) Hmul) as Hdiv.
  rewrite xorb_false_r in Hdiv. exact Hdiv.
Qed.

Lemma lt_le (x y : number) : lt x y = true -> le x y = true.
Proof.
  unfold lt, le, SFltb, SFleb.
  destruct (SFcompare x y) as [[| |]|]; congruence.
Qed.

(** A number of negative sign bit is at most zero and not above it. *)
Lemma signed_true_le_0 (x : number) :
  signed true x -> le x (of_Z 0) = true /\ lt (of_Z 0) x = false.
Proof.
  rewrite of_Z_0.
  destruct x as [s|s| |s m e]; simpl; intros Hx; subst;
    try contradiction; split; reflexivity.
Qed.

(** A number above zero has a positive sign bit. *)
Lemma lt_0_signed (x : number) : lt (of_Z 0) x = true -> signed false x.
Proof.
  rewrite of_Z_0.
  destruct x as [s|s| |s m e]; simpl; try discriminate;
    destruct s; simpl; try discriminate; reflexivity.
Qed.

(** The clamp [Math.min(100, Math.max(0, x))]. *)
Lemma clamp_in_range (x : number) :
  isNaN x = false ->
  in_0_100 (Math_min (of_Z 100) (Math_max (of_Z 0) x)) = true.
Proof.
  intros Hx. unfold Math_max. rewrite Hx.
  change (isNaN (of_Z 0) || false) with false. cbv iota.
  destruct (lt (of_Z 0) x) eqn:Hpos.
  - unfold Math_min. rewrite Hx.
    change (isNaN (of_Z 100) || false) with false. cbv iota.
    destruct (lt (of_Z 100) x) eqn:Hbig; [reflexivity|].
    destruct (lt x (of_Z 100)) eqn:Hsmall; [|reflexivity].
    unfold in_0_100. rewrite (lt_le _ _ Hpos), (lt_le _ _ Hsmall).
    reflexivity.
  - destruct (lt x (of_Z 0)); reflexivity.
Qed.

Lemma decimal_2_2 : GRAVITY = S754_finite false 5764607523034235 (-58).
Proof. reflexivity. Qed.

Lemma BASELINE_eq : BASELINE = S754_finite false 8444249301319680 (-47).
Proof. reflexivity. Qed.

(** When the sum [current + delta] is a finite number, so that neither
    operand is NaN or infinite and the sum does not overflow, the rounded
    value with gravity is not NaN. *)
Lemma round2_withGravity_not_nan (current delta : number) :
  isFinite (add current delta) = true ->
  isNaN (round2 (withGravity current delta)) = false.
Proof.
  intros Hfin. unfold withGravity.
  set (newValue := add current delta) in *.
  assert (Hsub : sub BASELINE newValue <> S754_nan).
  { unfold sub. apply SFsub_finite_not_nan.
    - rewrite BASELINE_eq. discriminate.
    - intros ->. discriminate.
    - rewrite BASELINE_eq. discriminate. }
  apply isNaN_false_iff in Hsub.
  destruct (not_nan_signed _ Hsub) as [s1 Hs1].
  pose proof (@SFmul_signed JsNumber.prec JsNumber.emax s1 false _
                5764607523034235 (-58) Hs1) as Hmul.
  fold (mul (sub BASELINE newValue) (S754_finite false 5764607523034235 (-58)))
    in Hmul.
  rewrite <- decimal_2_2 in Hmul.
  assert (Hadd : add newValue (mul (sub BASELINE newValue) GRAVITY)
                 <> S754_nan).
  { unfold add at 1. apply SFadd_finite_not_nan.
    - intros Heq. rewrite Heq in Hfin. discriminate.
    - apply isNaN_false_iff. eapply signed_not_nan. exact Hmul.
    - intros sx sy Heq. rewrite Heq in Hfin. discriminate. }
  apply isNaN_false_iff in Hadd.
  destruct (not_nan_signed _ Hadd) as [s2 Hs2].
  eapply signed_not_nan. apply round2_signed. exact Hs2.
Qed.

Lemma baseScore_values (c : jsstring) :
  In (baseScore c)
     [of_Z 8; of_Z 6; of_Z 5; of_Z 4; of_Z 3; of_Z 1; NaN].
Proof.
  unfold baseScore, CATEGORY_SCORES, lookup.
  repeat match goal with
         | |- context [JsString.eqb c ?k] =>
             destruct (JsString.eqb c k); [simpl; tauto|]
         end.
  destruct (some _ _); simpl; tauto.
Qed.

Lemma negative_on_scale_weights :
  forallb negative_on_scale
    [of_Z 8; of_Z 6; of_Z 5; of_Z 4; of_Z 3; of_Z 1] = true.
Proof. vm_cast_no_check (eq_refl true). Qed.

Lemma decimal_13_1 :
  decimal 13 1 = S754_finite false 5854679515581645 (-52).
Proof. reflexivity. Qed.

Lemma neg_decimal_5_1 :
  neg (decimal 5 1) = S754_finite true 4503599627370496 (-53).
Proof. reflexivity. Qed.

End NumberFacts.

(** * Properties of the tension engine *)

Section TensionEngine.

(** (C6, as the code has it) A title that hits both keyword tables gets both
    multipliers, one after the other: the delta is the base product times
    1.3 times -0.5, rounded to two decimals.  When the base product is above
    zero the delta is never above zero; it is below zero at every score
    [0.00], [0.01], ..., [10.00] of the scale. *)
Theorem both_multipliers_in_sequence (category : jsstring)
  (aiScore : number) (title : jsstring) :
  (exists kw, In kw CRITICAL_KEYWORDS /\
              includes kw (toLowerCase title) = true) ->
  (exists kw, In kw DEESCALATION_KEYWORDS /\
              includes kw (toLowerCase title) = true) ->
  let base := mul (baseScore category) (aiMultiplier aiScore) in
  let delta := calculateTensionDelta category aiScore title in
  delta = round2 (mul (mul base (decimal 13 1)) (neg (decimal 5 1))) /\
  (lt (of_Z 0) base = true ->
   le delta (of_Z 0) = true /\ lt (of_Z 0) delta = false) /\
  (forall k, (k <= 1000)%nat -> aiScore = decimal (Z.of_nat k) 2 ->
             lt (of_Z 0) base = true -> lt delta (of_Z 0) = true).
Proof.
  intros Hcritical Hdeescalation base delta.
  assert (Hc : hasCritical title = true).
  { unfold hasCritical, some. apply existsb_exists. exact Hcritical. }
  assert (Hd : hasDeescalation title = true).
  { unfold hasDeescalation, some. apply existsb_exists. exact Hdeescalation. }
  assert (Hdelta : delta
                   = round2 (mul (mul base (decimal 13 1))
                               (neg (decimal 5 1)))).
  { unfold delta, calculateTensionDelta. rewrite Hc, Hd. reflexivity. }
  split; [exact Hdelta|]. split.
  - intros Hpos. rewrite Hdelta.
    apply signed_true_le_0, round2_signed.
    rewrite decimal_13_1, neg_decimal_5_1.
    apply (@SFmul_signed JsNumber.prec JsNumber.emax false true).
    apply (@SFmul_signed JsNumber.prec JsNumber.emax false false).
    apply lt_0_signed. exact Hpos.
  - intros k Hk Hscore Hpos. rewrite Hdelta. unfold base in *.
    rewrite Hscore in *.
    pose proof negative_on_scale_weights as Hgrid.
    rewrite forallb_forall in Hgrid.
    assert (Hweight : In (baseScore category)
                        [of_Z 8; of_Z 6; of_Z 5; of_Z 4; of_Z 3; of_Z 1]).
    { pose proof (baseScore_values category) as Hin.
      simpl in Hin. simpl.
      destruct Hin as [H|[H|[H|[H|[H|[H|[H|[]]]]]]]]; auto 10.
      rewrite <- H in Hpos. discriminate. }
    specialize (Hgrid _ Hweight). unfold negative_on_scale in Hgrid.
    rewrite forallb_forall in Hgrid.
    apply (Hgrid k). apply in_seq. lia.
Qed.

(** (C7) The military weight 8 times the multiplier 1.5 of score 10 is 12;
    the title hits a high-tension keyword and no de-escalation keyword, and
    the delta is exactly 15.6. *)
Theorem military_missile_delta :
  baseScore (js "military") = of_Z 8 /\
  aiMultiplier (of_Z 10) = decimal 15 1 /\
  mul (of_Z 8) (decimal 15 1) = of_Z 12 /\
  hasCritical (js "missile strike reported") = true /\
  hasDeescalation (js "missile strike reported") = false /\
  calculateTensionDelta (js "military") (of_Z 10)
    (js "missile strike reported")
  = decimal 156 1.
Proof. repeat split; vm_compute; reflexivity. Qed.

(** (C8, as the code has it) [applyTensionDelta] never returns a number
    outside [0, 100]: the result is in that range or it is NaN.  It is in
    the range whenever the sum [current + delta] is a finite number, and the
    baseline with a zero delta stays where it is. *)
Theorem applyTensionDelta_range (current delta : number) :
  (in_0_100 (applyTensionDelta current delta) = true \/
   applyTensionDelta current delta = NaN) /\
  (isFinite (add current delta) = true ->
   in_0_100 (applyTensionDelta current delta) = true) /\
  applyTensionDelta (of_Z 60) (of_Z 0) = of_Z 60.
Proof.
  split; [|split].
  - unfold applyTensionDelta.
    destruct (isNaN (round2 (withGravity current delta))) eqn:Hnan.
    + right. destruct (round2 _); try discriminate. reflexivity.
    + left. apply clamp_in_range. exact Hnan.
  - intros Hfin. apply clamp_in_range.
    apply round2_withGravity_not_nan. exact Hfin.
  - vm_compute. reflexivity.
Qed.

End TensionEngine.

(** * Instances *)

Section Instances.

Import Examples.


(** The off-scale reply reaches the store and the tension engine as it
    came: the score 42 is neither rejected nor clamped. *)
Lemma offscale_score_reaches_store :
  In (InsertEvent offscale_row)
     (history (snd (runNewsCycle (world [headline] None offscale_reply)
                      idle))) /\
  parsed_reply (world [headline] None offscale_reply) offscale /\
  row_impact_score offscale_row = of_Z 42 /\
  in_0_10 (row_impact_score offscale_row) = false /\
  row_tension_delta offscale_row
  = calculateTensionDelta (js "military") (of_Z 42) (title headline) /\
  row_tension_delta offscale_row = decimal 4888 2.
Proof.
  split; [|split; [|repeat split; vm_compute; reflexivity]].
  - in_list.
  - exists [], offscale_reply. split; vm_compute; reflexivity.
Qed.

Lemma running_cycle_is_skipped_witness :
  runNewsCycle (world [headline] None prose_reply) busy
  = (Returned tt,
     {| isRunning := true;
        history := history busy
                   ++ [Log Warn (js "News cron already running — skipping")]
     |}).
Proof.
  apply (running_cycle_is_skipped (world [headline] None prose_reply) busy).
  reflexivity.
Defined.

Lemma guard_is_released_witness :
  fst (runNewsCycle broken_world idle) = Returned tt /\
  isRunning (snd (runNewsCycle broken_world idle)) = false.
Proof.
  apply (guard_is_released broken_world idle). reflexivity.
Defined.

(** The three ways out of a cycle that took the guard, run on the example
    worlds: no article, a full batch, a search that throws. *)
Example guard_after_each_exit :
  isRunning (snd (runNewsCycle (world [] None prose_reply) idle)) = false /\
  isRunning (snd (runNewsCycle (world [headline] None prose_reply) idle))
  = false /\
  runNewsCycle broken_world idle
  = (Returned tt,
     {| isRunning := false;
        history := [ Log Info (js "◈ News cycle started");
                     FetchLatestNews;
                     Log Error (js "News cycle failed") ] |}).
Proof. repeat split; vm_compute; reflexivity. Qed.

Lemma both_multipliers_in_sequence_witness :
  calculateTensionDelta (js "military") (decimal 1000 2) mixed_title
  = round2 (mul (mul (mul (baseScore (js "military"))
                        (aiMultiplier (decimal 1000 2)))
                   (decimal 13 1))
              (neg (decimal 5 1))) /\
  lt (calculateTensionDelta (js "military") (decimal 1000 2) mixed_title)
     (of_Z 0) = true.
Proof.
  assert (Hc : exists kw, In kw CRITICAL_KEYWORDS /\
                          includes kw (toLowerCase mixed_title) = true).
  { exists (js "strike"). split; [apply in_map; left|]; reflexivity. }
  assert (Hd : exists kw, In kw DEESCALATION_KEYWORDS /\
                          includes kw (toLowerCase mixed_title) = true).
  { exists (js "ceasefire").
    split; [apply in_map; simpl; tauto | reflexivity]. }
  destruct (both_multipliers_in_sequence (js "military") (decimal 1000 2)
              mixed_title Hc Hd) as (Hseq & _ & Hneg).
  split; [exact Hseq|].
  apply (Hneg 1000%nat); [lia | reflexivity | vm_compute; reflexivity].
Defined.

(** A positive base product so small that the delta rounds to [-0], which
    is not below zero. *)
Lemma tiny_base_product_rounds_to_zero :
  hasCritical (js "peace strike") = true /\
  hasDeescalation (js "peace strike") = true /\
  lt (of_Z 0)
     (mul (baseScore (js "other")) (aiMultiplier (decimal (-499) 2)))
  = true /\
  calculateTensionDelta (js "other") (decimal (-499) 2) (js "peace strike")
  = S754_zero true /\
  lt (calculateTensionDelta (js "other") (decimal (-499) 2)
        (js "peace strike"))
     (of_Z 0) = false.
Proof. repeat split; vm_compute; reflexivity. Qed.

(** Two finite numbers whose sum overflows: the result is NaN. *)
Lemma applyTensionDelta_overflow :
  isFinite MAX_VALUE = true /\
  applyTensionDelta MAX_VALUE MAX_VALUE = NaN /\
  in_0_100 (applyTensionDelta MAX_VALUE MAX_VALUE) = false.
Proof. repeat split; vm_compute; reflexivity. Qed.

Lemma malformed_reply_persists_fallback_witness :
  classifyNewsEvent (world [headline] None prose_reply) (title headline)
    (description headline) (record (SelectEventByUrl (url headline)) idle)
  = (Returned (fallbackClassification (title headline)),
     record (Log Error (js "classifyNewsEvent parse error"))
       (record (GatewayClassify (title headline) (description headline))
          (record (SelectEventByUrl (url headline)) idle))).
Proof.
  refine (proj1 (@malformed_reply_persists_fallback
                   (world [headline] None prose_reply) headline fresh idle
                   prose_reply _ _ _)); reflexivity.
Defined.

(** A reply that does not parse, on a headline with an alert keyword: the
    row handed to the store has [is_critical] true. *)
Lemma fallback_row_can_be_critical :
  JSON_parse_classification (world [headline] None prose_reply)
    (cleaned prose_reply) = None /\
  In (InsertEvent fallback_row)
     (history (snd (runNewsCycle (world [headline] None prose_reply)
                      idle))) /\
  row_category fallback_row = js "other" /\
  row_impact_score fallback_row = of_Z 3 /\
  row_is_critical fallback_row = true.
Proof.
  split; [vm_compute; reflexivity|].
  split; [|repeat split; vm_compute; reflexivity].
  in_list.
Qed.

Lemma cycle_starts_at_75_witness :
  startingTension (Some (of_Z 0)) = of_Z 75 /\
  startingTension (Some (of_Z 0)) <> BASELINE /\
  cycleBody (world [headline] (Some (of_Z 0)) prose_reply) idle
  = processBatch (world [headline] (Some (of_Z 0)) prose_reply) [headline]
      (of_Z 75)
      (record SelectLatestTension (record FetchLatestNews idle)).
Proof.
  apply (@cycle_starts_at_75 (world [headline] (Some (of_Z 0)) prose_reply)
           idle [headline] (Some (of_Z 0))).
  - reflexivity.
  - discriminate.
  - reflexivity.
  - right. exists (of_Z 0). split; reflexivity.
Defined.

End Instances.

(** * Properties of the further components *)

(** ** Comparison of numbers *)

Section Comparison.

Lemma Pos_compare_cont_Eq (p q : positive) :
  Pos.compare_cont Eq p q = Pos.compare p q.
Proof. reflexivity. Qed.

(** Swapping the operands of a comparison swaps its result. *)
Lemma SFcompare_swap (x y : number) :
  SFcompare y x = option_map CompOpp (SFcompare x y).
Proof.
  destruct x as [sx|sx| |sx mx ex], y as [sy|sy| |sy my ey]; simpl;
    try reflexivity;
    try (destruct sx; reflexivity);
    try (destruct sy; reflexivity);
    try (destruct sx, sy; reflexivity).
  rewrite !Pos_compare_cont_Eq.
  rewrite (Z.compare_antisym ex ey), (Pos.compare_antisym mx my).
  destruct sx, sy; simpl; try reflexivity;
    destruct (ex ?= ey)%Z; simpl; try reflexivity;
    destruct (mx ?= my)%positive; reflexivity.
Qed.

Lemma SFcompare_refl (x : number) :
  isNaN x = false -> SFcompare x x = Some Eq.
Proof.
  destruct x as [s|s| |s m e]; simpl; try discriminate; intros _;
    try (destruct s; reflexivity).
  rewrite Pos_compare_cont_Eq, Z.compare_refl, Pos.compare_refl.
  destruct s; reflexivity.
Qed.

Lemma le_refl (x : number) : isNaN x = false -> le x x = true.
Proof.
  intros H. unfold le, SFleb. rewrite (@SFcompare_refl x H). reflexivity.
Qed.

Lemma SFcompare_not_nan (x y : number) :
  isNaN x = false -> isNaN y = false -> exists c, SFcompare x y = Some c.
Proof.
  destruct x, y; simpl; try discriminate; intros _ _; eexists; reflexivity.
Qed.

Lemma le_not_nan (x y : number) :
  le x y = true -> isNaN x = false /\ isNaN y = false.
Proof.
  unfold le, SFleb. destruct x, y; simpl; try discriminate; auto.
Qed.

(** Two numbers of which neither is below the other compare equal. *)
Lemma not_lt_le (x y : number) :
  isNaN x = false -> isNaN y = false ->
  lt x y = false -> le y x = true.
Proof.
  intros Hx Hy Hlt. unfold lt, le, SFltb, SFleb in *.
  rewrite (SFcompare_swap x y).
  destruct (@SFcompare_not_nan x y Hx Hy) as [c Hc]. rewrite Hc in *.
  destruct c; simpl; congruence.
Qed.

(** The order on numbers is transitive. *)
Lemma le_trans (x y z : number) :
  le x y = true -> le y z = true -> le x z = true.
Proof.
  unfold le, SFleb.
  destruct x as [sx|sx| |sx mx ex], y as [sy|sy| |sy my ey],
           z as [sz|sz| |sz mz ez]; simpl;
    try discriminate; try reflexivity;
    try (destruct sx; simpl; try discriminate; try reflexivity;
         destruct sy; simpl; try discriminate; try reflexivity;
         destruct sz; simpl; try discriminate; reflexivity);
    try (destruct sx; simpl; try discriminate; try reflexivity;
         destruct sz; simpl; try discriminate; reflexivity);
    try (destruct sy; simpl; try discriminate; try reflexivity;
         destruct sz; simpl; try discriminate; reflexivity);
    try (destruct sx; simpl; try discriminate; try reflexivity;
         destruct sy; simpl; try discriminate; reflexivity).
  all: rewrite ?Pos_compare_cont_Eq.
  all: destruct sx, sy, sz; simpl; try discriminate; try reflexivity.
  all: destruct (Z.compare_spec ex ey), (Z.compare_spec ey ez),
                (Z.compare_spec ex ez); simpl;
       try discriminate; try reflexivity; try lia.
  all: subst.
  all: repeat match goal with
              | |- context [Pos.compare_cont Eq ?a ?b] =>
                  change (Pos.compare_cont Eq a b) with (Pos.compare a b)
              end.
  all: destruct (Pos.compare_spec mx my), (Pos.compare_spec my mz),
                (Pos.compare_spec mx mz); simpl;
       try discriminate; try reflexivity; try lia.
Qed.

End Comparison.

(** ** Strings *)

Section StringFacts.

Lemma jsstring_eqb_eq (s t : jsstring) : JsString.eqb s t = true <-> s = t.
Proof.
  revert t; induction s as [|c s IH]; intros [|d t]; simpl; split;
    try congruence; try discriminate.
  - rewrite andb_true_iff, N.eqb_eq, IH. intros [-> ->]; reflexivity.
  - intros H; injection H as -> ->.
    rewrite N.eqb_refl. simpl. apply IH. reflexivity.
Qed.

Lemma jsstring_eqb_refl (s : jsstring) : JsString.eqb s s = true.
Proof. apply jsstring_eqb_eq. reflexivity. Qed.

End StringFacts.

(** ** Tension levels, severities and sanitizers *)

Section Thresholds.

(** A threshold reached by a value is reached by every larger value. *)
Lemma ge_upward (c v1 v2 : number) :
  le v1 v2 = true -> ge v1 c = true -> ge v2 c = true.
Proof.
  unfold ge. intros H12 Hc. fold (le c v1) in Hc. fold (le c v2).
  exact (@le_trans c v1 v2 Hc H12).
Qed.

(** (X1) The level never goes down when the value goes up: of two values, the
    larger one is classified at least as severe as the smaller one. *)
Theorem classifyTensionLevel_monotone (v1 v2 : number) :
  le v1 v2 = true ->
  (severityRank (classifyTensionLevel v1)
   <= severityRank (classifyTensionLevel v2))%nat.
Proof.
  intros Hle. unfold classifyTensionLevel.
  pose proof (@ge_upward (of_Z 90) v1 v2 Hle) as H90.
  pose proof (@ge_upward (of_Z 75) v1 v2 Hle) as H75.
  pose proof (@ge_upward (of_Z 55) v1 v2 Hle) as H55.
  pose proof (@ge_upward (of_Z 35) v1 v2 Hle) as H35.
  destruct (ge v1 (of_Z 90)); [rewrite (H90 eq_refl); apply Nat.le_refl|].
  destruct (ge v1 (of_Z 75)).
  { rewrite (H75 eq_refl). destruct (ge v2 (of_Z 90)); vm_compute; lia. }
  destruct (ge v1 (of_Z 55)).
  { rewrite (H55 eq_refl).
    destruct (ge v2 (of_Z 90)), (ge v2 (of_Z 75)); vm_compute; lia. }
  destruct (ge v1 (of_Z 35)).
  { rewrite (H35 eq_refl).
    destruct (ge v2 (of_Z 90)), (ge v2 (of_Z 75)), (ge v2 (of_Z 55));
      vm_compute; lia. }
  destruct (ge v2 (of_Z 90)), (ge v2 (of_Z 75)), (ge v2 (of_Z 55)),
           (ge v2 (of_Z 35)); vm_compute; lia.
Qed.

Lemma classifyTensionLevel_monotone_witness :
  (severityRank (classifyTensionLevel (of_Z 60))
   <= severityRank (classifyTensionLevel (of_Z 92)))%nat.
Proof.
  apply (@classifyTensionLevel_monotone (of_Z 60) (of_Z 92)). reflexivity.
Defined.

(** [Math.max] returns one of its operands, the other one being at most
    it. *)
Lemma Math_max_cases (x y : number) :
  isNaN x = false -> isNaN y = false ->
  (Math_max x y = x /\ le y x = true) \/
  (Math_max x y = y /\ le x y = true).
Proof.
  intros Hx Hy. unfold Math_max. rewrite Hx, Hy. simpl.
  destruct (lt x y) eqn:Hxy.
  { right. split; [reflexivity | apply lt_le; exact Hxy]. }
  destruct (lt y x) eqn:Hyx.
  { left. split; [reflexivity | apply lt_le; exact Hyx]. }
  pose proof (@not_lt_le x y Hx Hy Hxy) as Hle1.
  pose proof (@not_lt_le y x Hy Hx Hyx) as Hle2.
  destruct x as [[|]| | |]; try (left; split; [reflexivity | exact Hle1]).
  destruct y; try (left; split; [reflexivity | exact Hle1]).
  right. split; [reflexivity | exact Hle2].
Qed.

Lemma Math_min_cases (x y : number) :
  isNaN x = false -> isNaN y = false ->
  (Math_min x y = x /\ le x y = true) \/
  (Math_min x y = y /\ le y x = true).
Proof.
  intros Hx Hy. unfold Math_min. rewrite Hx, Hy. simpl.
  destruct (lt x y) eqn:Hxy.
  { left. split; [reflexivity | apply lt_le; exact Hxy]. }
  destruct (lt y x) eqn:Hyx.
  { right. split; [reflexivity | apply lt_le; exact Hyx]. }
  pose proof (@not_lt_le x y Hx Hy Hxy) as Hle1.
  pose proof (@not_lt_le y x Hy Hx Hyx) as Hle2.
  destruct x as [[|]| | |]; try (left; split; [reflexivity | exact Hle2]).
  destruct y; try (left; split; [reflexivity | exact Hle2]).
  right. split; [reflexivity | exact Hle1].
Qed.

(** (X2) [sanitizeNumber] returns the default, unclamped, when the value does
    not convert to a number; otherwise, for bounds in order, it returns a
    number between them. *)
Theorem sanitizeNumber_within_bounds (Number : jsval -> number)
  (value : jsval) (min max defaultVal : number) :
  le min max = true ->
  (isNaN (Number value) = true ->
   Sanitize.sanitizeNumber Number value min max defaultVal = defaultVal) /\
  (isNaN (Number value) = false ->
   le min (Sanitize.sanitizeNumber Number value min max defaultVal) = true /\
   le (Sanitize.sanitizeNumber Number value min max defaultVal) max = true).
Proof.
  intros Hbounds. unfold Sanitize.sanitizeNumber. cbv zeta.
  split; intros Hnum; rewrite Hnum; [reflexivity|].
  destruct (le_not_nan _ _ Hbounds) as [Hmin Hmax].
  destruct (@Math_max_cases (Number value) min Hnum Hmin)
    as [[Hm Hle]|[Hm Hle]]; rewrite Hm.
  - destruct (@Math_min_cases (Number value) max Hnum Hmax)
      as [[Hr Hle']|[Hr Hle']]; rewrite Hr.
    + split; assumption.
    + split; [exact Hbounds | apply le_refl; exact Hmax].
  - destruct (@Math_min_cases min max Hmin Hmax)
      as [[Hr Hle']|[Hr Hle']]; rewrite Hr.
    + split; [apply le_refl; exact Hmin | exact Hle'].
    + split; [exact Hbounds | apply le_refl; exact Hmax].
Qed.

Lemma sanitizeNumber_within_bounds_witness :
  Sanitize.sanitizeNumber Sanitize.Number_of_primitive
    (JNum (of_Z 200)) (of_Z 1) (of_Z 50) (of_Z 20) = of_Z 50 /\
  le (of_Z 1)
     (Sanitize.sanitizeNumber Sanitize.Number_of_primitive
        (JNum (of_Z 200)) (of_Z 1) (of_Z 50) (of_Z 20)) = true.
Proof.
  split; [reflexivity|].
  apply (@sanitizeNumber_within_bounds Sanitize.Number_of_primitive
           (JNum (of_Z 200)) (of_Z 1) (of_Z 50) (of_Z 20));
    reflexivity.
Defined.


(** (X4) An alert queued on its score alone (8 or more) is never of medium
    severity. *)
Theorem score_alert_is_high_or_critical (s : number) :
  ge s (of_Z 8) = true ->
  severityOf s = js "critical" \/ severityOf s = js "high".
Proof.
  intros H8. unfold severityOf.
  destruct (ge s (of_Z 9)); [left; reflexivity|].
  assert (H7 : ge s (of_Z 7) = true).
  { unfold ge in *. fold (le (of_Z 8) s) in H8. fold (le (of_Z 7) s).
    apply (@le_trans (of_Z 7) (of_Z 8) s); [reflexivity | exact H8]. }
  rewrite H7. right. reflexivity.
Qed.

Lemma score_alert_is_high_or_critical_witness :
  severityOf (of_Z 8) = js "critical" \/ severityOf (of_Z 8) = js "high".
Proof.
  apply (@score_alert_is_high_or_critical (of_Z 8)). reflexivity.
Defined.

End Thresholds.

(** ** More on the tension delta *)

Section DeltaFacts.

Lemma SFmul_signed_l (prec emax : Z) (sx sy : bool) (mx : positive) (ex : Z)
  (y : spec_float) :
  signed sy y ->
  signed (xorb sx sy) (SFmul prec emax (S754_finite sx mx ex) y).
Proof.
  destruct y as [s|s| |s m e]; simpl; intros Hy; subst;
    try reflexivity; try contradiction.
  apply binary_round_aux_signed. lia.
Qed.

(** The sum of two numbers of positive sign has a positive sign. *)
Lemma SFadd_signed_false (prec emax : Z) (x y : spec_float) :
  signed false x -> signed false y -> signed false (SFadd prec emax x y).
Proof.
  destruct x as [sx|sx| |sx mx ex], y as [sy|sy| |sy my ey]; simpl;
    intros Hx Hy; subst; try contradiction; try reflexivity.
  destruct (shl_align mx ex (Z.min ex ey)) as [m1 e1].
  destruct (shl_align my ey (Z.min ex ey)) as [m2 e2].
  simpl. apply binary_round_signed.
Qed.

Lemma signed_false_ge_0 (x : number) :
  signed false x -> le (of_Z 0) x = true.
Proof.
  rewrite of_Z_0.
  destruct x as [s|s| |s m e]; simpl; intros Hx; subst;
    try contradiction; reflexivity.
Qed.

Lemma of_Z_10 : of_Z 10 = S754_finite false 5629499534213120 (-49).
Proof. reflexivity. Qed.

Lemma decimal_5_1 : decimal 5 1 = S754_finite false 4503599627370496 (-53).
Proof. reflexivity. Qed.

(** The multiplier of a score that is not NaN is not NaN. *)
Lemma aiMultiplier_not_nan (aiScore : number) :
  isNaN aiScore = false -> isNaN (aiMultiplier aiScore) = false.
Proof.
  intros Hs. unfold aiMultiplier.
  destruct (not_nan_signed _ Hs) as [s Hsigned].
  pose proof (@SFdiv_signed JsNumber.prec JsNumber.emax s false aiScore
                5629499534213120 (-49) Hsigned) as Hdiv.
  fold (div aiScore (S754_finite false 5629499534213120 (-49))) in Hdiv.
  rewrite <- of_Z_10 in Hdiv.
  apply isNaN_false_iff. unfold add. apply SFadd_finite_not_nan.
  - rewrite decimal_5_1. discriminate.
  - apply isNaN_false_iff. eapply signed_not_nan. exact Hdiv.
  - rewrite decimal_5_1. discriminate.
Qed.

(** The multiplier of a score that is at least zero has a positive sign. *)
Lemma aiMultiplier_signed (aiScore : number) :
  le (of_Z 0) aiScore = true -> signed false (aiMultiplier aiScore).
Proof.
  intros Hs. unfold aiMultiplier.
  assert (Hdiv : signed false (div aiScore (of_Z 10))
                 \/ div aiScore (of_Z 10) = S754_zero true).
  { rewrite of_Z_0 in Hs. rewrite of_Z_10.
    destruct aiScore as [s|s| |s m e]; simpl in Hs; try discriminate.
    - destruct s; [right | left]; reflexivity.
    - destruct s; [discriminate|]. left. reflexivity.
    - destruct s; [discriminate|]. left.
      apply (@SFdiv_signed JsNumber.prec JsNumber.emax false false
               (S754_finite false m e) 5629499534213120 (-49)).
      reflexivity. }
  destruct Hdiv as [Hdiv| ->].
  - unfold add. apply SFadd_signed_false; [|exact Hdiv].
    rewrite decimal_5_1. reflexivity.
  - reflexivity.
Qed.

Lemma lookup_Some_In (k : jsstring) (table : list (jsstring * number))
  (v : number) :
  lookup k table = Some v -> In v (List.map snd table).
Proof.
  induction table as [|[k' v'] rest IH]; simpl; [discriminate|].
  destruct (JsString.eqb k k').
  - intros [= ->]. left. reflexivity.
  - intros H. right. apply IH. exact H.
Qed.

Lemma lookup_None (k : jsstring) (table : list (jsstring * number)) :
  ~ In k (List.map fst table) -> lookup k table = None.
Proof.
  induction table as [|[k' v'] rest IH]; simpl; [reflexivity|].
  intros Hnot. destruct (JsString.eqb k k') eqn:Heq.
  - apply jsstring_eqb_eq in Heq. subst. exfalso. apply Hnot. left.
    reflexivity.
  - apply IH. intros Hin. apply Hnot. right. exact Hin.
Qed.

Lemma not_inherited (c : jsstring) :
  ~ In c inherited_keys -> some (JsString.eqb c) inherited_keys = false.
Proof.
  intros Hnot. unfold some.
  destruct (existsb (JsString.eqb c) inherited_keys) eqn:Hex;
    [|reflexivity].
  apply existsb_exists in Hex. destruct Hex as (k & Hin & Heq).
  apply jsstring_eqb_eq in Heq. subst. contradiction.
Qed.

(** Outside the inherited names, the base score is one of the six weights,
    a positive finite number. *)
Lemma baseScore_weight (c : jsstring) :
  ~ In c inherited_keys ->
  exists m e, baseScore c = S754_finite false m e.
Proof.
  intros Hnot. unfold baseScore.
  destruct (lookup c CATEGORY_SCORES) as [v|] eqn:Hlookup.
  - apply lookup_Some_In in Hlookup. simpl in Hlookup.
    destruct Hlookup as [<-|[<-|[<-|[<-|[<-|[<-|[]]]]]]];
      eexists _, _; reflexivity.
  - rewrite (@not_inherited c Hnot). eexists _, _. reflexivity.
Qed.

Lemma calculateTensionDelta_signed (c : jsstring) (aiScore : number)
  (t : jsstring) (s : bool) :
  ~ In c inherited_keys ->
  signed s (aiMultiplier aiScore) ->
  signed (xorb s (hasDeescalation t)) (calculateTensionDelta c aiScore t).
Proof.
  intros Hc Hmult. unfold calculateTensionDelta.
  destruct (@baseScore_weight c Hc) as (m & e & ->).
  pose proof (@SFmul_signed_l JsNumber.prec JsNumber.emax false s m e
                (aiMultiplier aiScore) Hmult) as Hbase.
  fold (mul (S754_finite false m e) (aiMultiplier aiScore)) in Hbase.
  simpl xorb in Hbase.
  set (base := mul (S754_finite false m e) (aiMultiplier aiScore)) in *.
  assert (Hcrit : signed s (if hasCritical t
                            then mul base (decimal 13 1) else base)).
  { destruct (hasCritical t); [|exact Hbase].
    rewrite decimal_13_1.
    replace s with (xorb s false) by apply xorb_false_r.
    apply (@SFmul_signed JsNumber.prec JsNumber.emax s false).
    exact Hbase. }
  apply round2_signed.
  destruct (hasDeescalation t).
  - rewrite neg_decimal_5_1.
    apply (@SFmul_signed JsNumber.prec JsNumber.emax s true).
    exact Hcrit.
  - rewrite xorb_false_r. exact Hcrit.
Qed.

(** (X5) A category that is neither one of the six of the table nor a name
    inherited from [Object.prototype] weighs 1, like ['other']: the delta is
    the same. *)
Theorem unknown_category_counts_as_other (c : jsstring) (aiScore : number)
  (t : jsstring) :
  ~ In c (List.map fst CATEGORY_SCORES) ->
  ~ In c inherited_keys ->
  calculateTensionDelta c aiScore t
  = calculateTensionDelta (js "other") aiScore t.
Proof.
  intros Htable Hinherited. unfold calculateTensionDelta.
  assert (Hbase : baseScore c = baseScore (js "other")).
  { unfold baseScore at 1.
    rewrite (@lookup_None c CATEGORY_SCORES Htable),
      (@not_inherited c Hinherited).
    reflexivity. }
  rewrite Hbase. reflexivity.
Qed.

(** (X6) The delta is NaN exactly when the score is NaN or the category is a
    name inherited from [Object.prototype]. *)
Theorem delta_nan_iff (c : jsstring) (aiScore : number) (t : jsstring) :
  isNaN (calculateTensionDelta c aiScore t) = true <->
  isNaN aiScore = true \/ In c inherited_keys.
Proof.
  split.
  - intros Hnan.
    destruct (isNaN aiScore) eqn:Hs; [left; reflexivity|]. right.
    destruct (List.existsb (JsString.eqb c) inherited_keys) eqn:Hex.
    + apply existsb_exists in Hex. destruct Hex as (k & Hin & Heq).
      apply jsstring_eqb_eq in Heq. subst. exact Hin.
    + exfalso.
      assert (Hnot : ~ In c inherited_keys).
      { intros Hin.
        assert (existsb (JsString.eqb c) inherited_keys = true);
          [|congruence].
        apply existsb_exists. exists c. split; [exact Hin|].
        apply jsstring_eqb_refl. }
      destruct (not_nan_signed _ (@aiMultiplier_not_nan aiScore Hs))
        as [s Hm].
      pose proof (@calculateTensionDelta_signed c aiScore t s Hnot Hm) as H.
      apply signed_not_nan in H. congruence.
  - intros [Hs|Hin].
    + destruct aiScore; try discriminate.
      unfold calculateTensionDelta.
      assert (Hmul : forall b, mul b (aiMultiplier S754_nan) = NaN).
      { intros b. destruct b; reflexivity. }
      rewrite Hmul.
      destruct (hasCritical t), (hasDeescalation t); reflexivity.
    + assert (Hbase : baseScore c = NaN).
      { simpl in Hin.
        repeat (destruct Hin as [<-|Hin]; [reflexivity|]).
        contradiction. }
      unfold calculateTensionDelta. rewrite Hbase.
      destruct (hasCritical t), (hasDeescalation t); reflexivity.
Qed.

(** (X7) For a score of at least zero, a title with a de-escalation keyword
    never gives a delta above zero, and a title without one never gives a
    delta below zero. *)
Theorem delta_direction (c : jsstring) (aiScore : number) (t : jsstring) :
  ~ In c inherited_keys ->
  le (of_Z 0) aiScore = true ->
  if hasDeescalation t
  then le (calculateTensionDelta c aiScore t) (of_Z 0) = true
  else le (of_Z 0) (calculateTensionDelta c aiScore t) = true.
Proof.
  intros Hc Hs.
  pose proof (@calculateTensionDelta_signed c aiScore t false Hc
                (@aiMultiplier_signed aiScore Hs)) as Hsigned.
  destruct (hasDeescalation t); simpl in Hsigned.
  - apply signed_true_le_0. exact Hsigned.
  - apply signed_false_ge_0. exact Hsigned.
Qed.

End DeltaFacts.

(** ** Keyword matching *)

Section KeywordFacts.

Lemma startsWith_app (p s : jsstring) : startsWith p (p ++ s) = true.
Proof.
  induction p as [|c p IH]; simpl; [reflexivity|].
  rewrite N.eqb_refl. exact IH.
Qed.

Lemma includes_startsWith (p s : jsstring) :
  startsWith p s = true -> includes p s = true.
Proof. intros H. destruct s; simpl; rewrite H; reflexivity. Qed.

Lemma includes_cons (p : jsstring) (c : N) (s : jsstring) :
  includes p s = true -> includes p (c :: s) = true.
Proof.
  intros H. change (includes p (c :: s))
    with (startsWith p (c :: s) || includes p s).
  rewrite H. apply orb_true_r.
Qed.

(** A string includes whatever stands anywhere inside it. *)
Lemma includes_inside (before kw after : jsstring) :
  includes kw (before ++ kw ++ after) = true.
Proof.
  induction before as [|c before IH].
  - rewrite app_nil_l. apply includes_startsWith, startsWith_app.
  - apply includes_cons. exact IH.
Qed.

Lemma toLowerCase_app (s t : jsstring) :
  toLowerCase (s ++ t) = toLowerCase s ++ toLowerCase t.
Proof. apply map_app. Qed.

(** The alert keywords are written in lower case. *)
Lemma alert_keyword_lower (kw : jsstring) :
  In kw ALERT_KEYWORDS -> toLowerCase kw = kw.
Proof.
  intros Hin. simpl in Hin.
  repeat (destruct Hin as [<-|Hin]; [reflexivity|]).
  contradiction.
Qed.

Lemma alert_keyword_found (kw text : jsstring) :
  In kw ALERT_KEYWORDS ->
  includes kw (toLowerCase text) = true ->
  some (fun k => includes k (toLowerCase text)) ALERT_KEYWORDS = true.
Proof.
  intros Hin Hinc. unfold some. apply existsb_exists.
  exists kw. split; assumption.
Qed.

(** (X8) An alert keyword standing anywhere in the title or in the description,
    inside a longer word or not, triggers the alert whatever the impact
    score is. *)
Theorem keyword_anywhere_triggers_alert (kw before after : jsstring)
  (impact_score : number) :
  In kw ALERT_KEYWORDS ->
  (forall d, shouldTriggerAlert (before ++ kw ++ after) d impact_score
             = true) /\
  (forall t, shouldTriggerAlert t (Some (before ++ kw ++ after))
               impact_score = true).
Proof.
  intros Hin. split.
  - intros d. unfold shouldTriggerAlert.
    rewrite (@alert_keyword_found kw
               (alertText (before ++ kw ++ after) d) Hin);
      [apply orb_true_r|].
    unfold alertText. rewrite <- !app_assoc.
    rewrite !toLowerCase_app, (@alert_keyword_lower kw Hin).
    apply includes_inside.
  - intros t. unfold shouldTriggerAlert.
    rewrite (@alert_keyword_found kw
               (alertText t (Some (before ++ kw ++ after))) Hin);
      [apply orb_true_r|].
    unfold alertText.
    replace (t ++ js " " ++ before ++ kw ++ after)
      with ((t ++ js " " ++ before) ++ kw ++ after)
      by (rewrite <- !app_assoc; reflexivity).
    rewrite !toLowerCase_app, (@alert_keyword_lower kw Hin).
    rewrite <- toLowerCase_app.
    apply includes_inside.
Qed.

End KeywordFacts.

(** ** The gateway functions *)

Section GatewayFacts.

Variable env : Env.

(** (X9) [classifyNewsEvent] sends one request and never throws: it returns the
    parsed reply, or else logs one error and returns the fallback. *)
Theorem classifyNewsEvent_never_throws (t : jsstring)
  (d : option jsstring) (st : State) :
  let asked := record (GatewayClassify t d) st in
  (exists text c,
      gatewayText env (history asked) = Returned text /\
      JSON_parse_classification env (cleaned text) = Some c /\
      classifyNewsEvent env t d st = (Returned c, asked)) \/
  classifyNewsEvent env t d st
  = (Returned (fallbackClassification t),
     record (Log Error (js "classifyNewsEvent parse error")) asked).
Proof.
  intros asked. unfold classifyNewsEvent, try_catch, bind, await.
  fold asked.
  destruct (gatewayText env (history asked)) as [text|] eqn:Htext.
  - destruct (JSON_parse_classification env (cleaned text)) as [c|] eqn:Hc.
    + left. exists text, c. repeat split; assumption.
    + right. reflexivity.
  - right. reflexivity.
Qed.

(** (X10) [translateNewsTitle] sends one request and never throws: it returns
    the parsed translations, or else logs one error and returns the English
    title for every language. *)
Theorem translateNewsTitle_never_throws (titleEn : jsstring) (st : State) :
  let asked := record (GatewayTranslate titleEn) st in
  (exists text translations,
      gatewayText env (history asked) = Returned text /\
      JSON_parse_translations env (cleaned text) = Some translations /\
      translateNewsTitle env titleEn st = (Returned translations, asked)) \/
  translateNewsTitle env titleEn st
  = (Returned {| pt := titleEn; es := titleEn; ar := titleEn;
                 fa := titleEn |},
     record (Log Error (js "translateNewsTitle error")) asked).
Proof.
  intros asked. unfold translateNewsTitle, try_catch, bind, await.
  fold asked.
  destruct (gatewayText env (history asked)) as [text|] eqn:Htext.
  - destruct (JSON_parse_translations env (cleaned text)) as [tr|] eqn:Hc.
    + left. exists text, tr. repeat split; assumption.
    + right. reflexivity.
  - right. reflexivity.
Qed.

End GatewayFacts.

(** ** Cleaning a reply *)

Section CleaningFacts.

(** A code unit other than the backtick is kept. *)
Lemma strip_fences_other (c : N) (rest : jsstring) :
  c <> 96%N -> strip_fences (c :: rest) = c :: strip_fences rest.
Proof.
  intros Hc.
  destruct c as [|p]; [reflexivity|].
  do 7 (destruct p as [p|p|]; try reflexivity).
  all: try (exfalso; apply Hc; reflexivity).
Qed.

Lemma strip_fences_fence_free (s rest : jsstring) :
  Forall (fun c => c <> 96%N) s ->
  strip_fences (s ++ rest) = s ++ strip_fences rest.
Proof.
  induction 1 as [|c s Hc Hs IH]; [reflexivity|].
  simpl app. rewrite (@strip_fences_other c (s ++ rest) Hc), IH. reflexivity.
Qed.

Lemma trimStart_keep (a : N) (s : jsstring) :
  is_space a = false -> trimStart (a :: s) = a :: s.
Proof. intros Ha. simpl. rewrite Ha. reflexivity. Qed.

Lemma trimStart_app_last (l : jsstring) (a : N) :
  is_space a = false -> trimStart (l ++ [a]) = trimStart l ++ [a].
Proof.
  intros Ha. induction l as [|c l IH]; simpl.
  - rewrite Ha. reflexivity.
  - destruct (is_space c); [exact IH | reflexivity].
Qed.

(** What [trimStart] returns is empty or starts with a code unit that is
    not white space. *)
Lemma trimStart_shape (s : jsstring) :
  trimStart s = [] \/
  exists a t, is_space a = false /\ trimStart s = a :: t.
Proof.
  induction s as [|c s IH]; simpl; [left; reflexivity|].
  destruct (is_space c) eqn:Hc; [exact IH|].
  right. exists c, s. split; [exact Hc | reflexivity].
Qed.

Lemma In_trimStart (c : N) (s : jsstring) :
  In c (trimStart s) -> In c s.
Proof.
  induction s as [|d s IH]; simpl; [tauto|].
  destruct (is_space d); [intros H; right; apply IH, H | tauto].
Qed.

Lemma In_trim (c : N) (s : jsstring) : In c (trim s) -> In c s.
Proof.
  unfold trim. intros H.
  apply In_trimStart, in_rev, In_trimStart, in_rev. exact H.
Qed.

(** A string that neither starts nor ends with white space is its own
    trimming. *)
Lemma trim_bounded (a b : N) (m : jsstring) :
  is_space a = false -> is_space b = false ->
  trim (a :: m ++ [b]) = a :: m ++ [b].
Proof.
  intros Ha Hb. unfold trim.
  rewrite (@trimStart_keep a (m ++ [b]) Ha).
  assert (Hrev : rev (a :: m ++ [b]) = b :: rev m ++ [a]).
  { simpl. rewrite rev_app_distr. reflexivity. }
  rewrite Hrev, (@trimStart_keep b (rev m ++ [a]) Hb), <- Hrev.
  apply rev_involutive.
Qed.

Lemma trim_single (a : N) : is_space a = false -> trim [a] = [a].
Proof. intros Ha. unfold trim. simpl. rewrite Ha. simpl. rewrite Ha.
  reflexivity. Qed.

(** The shape of a trimmed string. *)
Lemma trim_shape (s : jsstring) :
  trim s = [] \/
  (exists a, is_space a = false /\ trim s = [a]) \/
  (exists a m b, is_space a = false /\ is_space b = false /\
                 trim s = a :: m ++ [b]).
Proof.
  unfold trim.
  destruct (trimStart_shape s) as [->|(a & t & Ha & ->)];
    [left; reflexivity|].
  simpl rev. rewrite (@trimStart_app_last (rev t) a Ha), rev_app_distr.
  simpl.
  destruct (trimStart_shape (rev t)) as [->|(b & u & Hb & ->)].
  - right. left. exists a. split; [exact Ha | reflexivity].
  - right. right. exists a, (rev u), b. simpl.
    repeat split; assumption.
Qed.

Lemma trim_idempotent (s : jsstring) : trim (trim s) = trim s.
Proof.
  destruct (trim_shape s)
    as [->|[(a & Ha & ->)|(a & m & b & Ha & Hb & ->)]].
  - reflexivity.
  - apply trim_single, Ha.
  - apply trim_bounded; assumption.
Qed.

(** (X11) A reply without a backtick is only trimmed. *)
Theorem fence_free_reply_is_trimmed (text : jsstring) :
  Forall (fun c => c <> 96%N) text -> cleaned text = trim text.
Proof.
  intros Hfree. unfold cleaned.
  assert (Htrim : Forall (fun c => c <> 96%N) (trim text)).
  { rewrite Forall_forall in *. intros c Hc. apply Hfree, In_trim, Hc. }
  pose proof (@strip_fences_fence_free (trim text) [] Htrim) as Hstrip.
  rewrite !app_nil_r in Hstrip. simpl in Hstrip.
  rewrite Hstrip. apply trim_idempotent.
Qed.

(** (X12) A reply wrapped in a [json] code fence is cleaned to its trimmed
    body. *)
Theorem fenced_reply_is_unwrapped (body : jsstring) :
  Forall (fun c => c <> 96%N) body ->
  cleaned (js "```json" ++ body ++ js "```") = trim body.
Proof.
  intros Hfree. unfold cleaned.
  assert (Hwhole : js "```json" ++ body ++ js "```"
                   = 96%N :: ([96; 96; 106; 115; 111; 110]%N ++ body
                              ++ [96; 96]%N) ++ [96%N]).
  { change (js "```json") with [96; 96; 96; 106; 115; 111; 110]%N.
    change (js "```") with [96; 96; 96]%N.
    simpl. rewrite <- !app_assoc. reflexivity. }
  rewrite Hwhole, trim_bounded by reflexivity.
  rewrite <- Hwhole.
  change (js "```json") with [96; 96; 96; 106; 115; 111; 110]%N.
  change (strip_fences ([96; 96; 96; 106; 115; 111; 110]%N ++ body
                        ++ js "```"))
    with (strip_fences (body ++ js "```")).
  rewrite (@strip_fences_fence_free body (js "```") Hfree).
  change (strip_fences (js "```")) with (@nil N).
  rewrite app_nil_r. reflexivity.
Qed.

End CleaningFacts.

(** ** Escaping for the notification channel *)

Section EscapeFacts.

Import Telegram.

Lemma escapeMarkdown_cons (a : N) (s : jsstring) :
  escapeMarkdown (Some (a :: s))
  = (if is_reserved a then [92%N; a] else [a]) ++ escapeMarkdown (Some s).
Proof. reflexivity. Qed.

Lemma backslash_not_reserved : is_reserved 92%N = false.
Proof. reflexivity. Qed.

(** An escaped text never starts with a bare reserved character. *)
Lemma escapeMarkdown_head (s : jsstring) (c : N) (rest : jsstring) :
  escapeMarkdown (Some s) = c :: rest -> is_reserved c = false.
Proof.
  destruct s as [|a s]; [discriminate|].
  rewrite escapeMarkdown_cons.
  destruct (is_reserved a) eqn:Ha; simpl; intros [= <- _].
  - apply backslash_not_reserved.
  - exact Ha.
Qed.

(** (X13) Escaping loses nothing: dropping the backslash in front of every
    reserved character gives the text back, so two different texts are never
    escaped to the same one. *)
Theorem escapeMarkdown_round_trip (s : jsstring) :
  unescape (escapeMarkdown (Some s)) = s /\
  (forall t, escapeMarkdown (Some s) = escapeMarkdown (Some t) -> s = t).
Proof.
  assert (Hback : forall u, unescape (escapeMarkdown (Some u)) = u).
  { induction u as [|a u IH]; [reflexivity|].
    rewrite escapeMarkdown_cons.
    destruct (is_reserved a) eqn:Ha.
    - simpl app. simpl unescape. rewrite Ha. simpl. rewrite IH.
      reflexivity.
    - simpl app.
      destruct (escapeMarkdown (@Some jsstring u)) as [|c rest] eqn:Hu.
      + simpl in IH. subst u. reflexivity.
      + pose proof (@escapeMarkdown_head u c rest Hu) as Hc.
        change (unescape (a :: c :: rest))
          with (if (a =? 92)%N && is_reserved c then c :: unescape rest
                else a :: unescape (c :: rest)).
        rewrite Hc, andb_false_r, IH. reflexivity. }
  split; [apply Hback|].
  intros t Heq. rewrite <- (Hback s), <- (Hback t), Heq. reflexivity.
Qed.

(** (X14) In an escaped text every reserved character stands right after a
    backslash; a missing text is escaped to the empty one. *)
Theorem escapeMarkdown_guards_reserved (s : jsstring) (i : nat) (c : N) :
  escapeMarkdown None = [] /\
  (nth_error (escapeMarkdown (Some s)) i = Some c ->
   is_reserved c = true ->
   exists j, i = S j /\ nth_error (escapeMarkdown (Some s)) j = Some 92%N).
Proof.
  split; [reflexivity|].
  revert i. induction s as [|a s IH]; intros i Hnth Hres.
  - destruct i; discriminate.
  - rewrite escapeMarkdown_cons in *.
    destruct (is_reserved a) eqn:Ha; simpl app in *.
    + destruct i as [|[|i]]; simpl in Hnth.
      * injection Hnth as <-. rewrite backslash_not_reserved in Hres.
        discriminate.
      * exists 0%nat. split; reflexivity.
      * destruct (IH i Hnth Hres) as (j & -> & Hj).
        exists (S (S j)). split; [reflexivity | exact Hj].
    + destruct i as [|i]; simpl in Hnth.
      * injection Hnth as <-. congruence.
      * destruct (IH i Hnth Hres) as (j & -> & Hj).
        exists (S j). split; [reflexivity | exact Hj].
Qed.

End EscapeFacts.

(** ** Personal notifications *)

Section NotifyFacts.

Import Telegram.

Variable fetch : list Telegram.step -> outcome unit.

Lemma recipients_app (l1 l2 : list Telegram.step) :
  recipients (l1 ++ l2) = recipients l1 ++ recipients l2.
Proof. unfold recipients. apply flat_map_app. Qed.

Lemma notify_fold (alert : Alert) (users : list ProUser) :
  forall done,
    recipients (fold_left (notifyUser fetch alert) users done)
    = recipients done ++ eligible users.
Proof.
  induction users as [|u users IH]; intros done; simpl.
  - rewrite app_nil_r. reflexivity.
  - rewrite IH. unfold notifyUser.
    destruct (alert_telegram_enabled u);
      [|rewrite app_nil_l; reflexivity].
    destruct (telegram_chat_id u) as [[|c chat]|];
      try (rewrite app_nil_l; reflexivity).
    destruct (fetch _); rewrite ?recipients_app; simpl;
      rewrite ?app_nil_r, <- app_assoc; reflexivity.
Qed.

(** (X15) With the bot token set, the subscribers written to are exactly the
    users who enabled personal alerts and registered a chat, each once and in
    the order given, whichever of the requests fail; without the token nothing
    is sent or logged. *)
Theorem notifyProUsers_reaches_eligible (alert : Alert)
  (users : list ProUser) :
  recipients (notifyProUsersViaTelegram true fetch alert users)
  = eligible users /\
  notifyProUsersViaTelegram false fetch alert users = [].
Proof.
  split; [|reflexivity].
  unfold notifyProUsersViaTelegram. rewrite notify_fold. reflexivity.
Qed.

End NotifyFacts.

(** ** The fetcher *)

Section FetcherFacts.

Import News.

Variables NEWS_API_KEY GNEWS_API_KEY : bool.
Variables newsapi gnews : jsstring -> response.

Local Abbreviation keywordArticles' :=
  (keywordArticles NEWS_API_KEY GNEWS_API_KEY newsapi gnews).
Local Abbreviation contribution' :=
  (contribution NEWS_API_KEY GNEWS_API_KEY newsapi gnews).
Local Abbreviation fetchKeyword' :=
  (fetchKeyword NEWS_API_KEY GNEWS_API_KEY newsapi gnews).

Lemma has_true_iff (u : jsstring) (m : list Article) :
  has u m = true <-> In u (List.map url m).
Proof.
  unfold has. rewrite existsb_exists, in_map_iff. split.
  - intros (a & Hin & Heq). apply jsstring_eqb_eq in Heq.
    exists a. split; assumption.
  - intros (a & Heq & Hin). exists a. split; [exact Hin|].
    apply jsstring_eqb_eq. exact Heq.
Qed.

Lemma addAll_app (m l1 l2 : list Article) :
  addAll m (l1 ++ l2) = addAll (addAll m l1) l2.
Proof. unfold addAll. apply fold_left_app. Qed.

Lemma NoDup_snoc {A} (l : list A) (x : A) :
  NoDup l -> ~ In x l -> NoDup (l ++ [x]).
Proof.
  induction 1 as [|y l Hy Hl IH]; simpl; intros Hx.
  - constructor; [tauto | constructor].
  - constructor.
    + rewrite in_app_iff. simpl. intros [H|[H|[]]]; [tauto|].
      apply Hx. left. symmetry. exact H.
    + apply IH. tauto.
Qed.

Lemma addAll_NoDup (l : list Article) :
  forall m, NoDup (List.map url m) -> NoDup (List.map url (addAll m l)).
Proof.
  induction l as [|a l IH]; intros m Hm; [exact Hm|].
  simpl. apply IH.
  destruct (has (url a) m) eqn:Hhas; [exact Hm|].
  rewrite map_app. simpl. apply NoDup_snoc; [exact Hm|].
  intros Hin. apply has_true_iff in Hin. congruence.
Qed.

Lemma find_app {A} (f : A -> bool) (l1 l2 : list A) :
  find f (l1 ++ l2)
  = match find f l1 with Some x => Some x | None => find f l2 end.
Proof.
  induction l1 as [|x l1 IH]; simpl; [reflexivity|].
  destruct (f x); [reflexivity | exact IH].
Qed.

Lemma find_none_has (u : jsstring) (m : list Article) :
  firstWithUrl u m = None -> has u m = false.
Proof.
  unfold firstWithUrl, has. induction m as [|a m IH]; simpl;
    [reflexivity|].
  destruct (JsString.eqb (url a) u); [discriminate | exact IH].
Qed.

Lemma addAll_first (u : jsstring) (l : list Article) :
  forall m, firstWithUrl u (addAll m l) = firstWithUrl u (m ++ l).
Proof.
  induction l as [|a l IH]; intros m; simpl.
  - rewrite app_nil_r. reflexivity.
  - rewrite IH. destruct (has (url a) m) eqn:Hhas.
    + unfold firstWithUrl. rewrite !find_app.
      destruct (find _ m) as [x|] eqn:Hfind; [reflexivity|].
      simpl. destruct (JsString.eqb (url a) u) eqn:Hu; [|reflexivity].
      apply jsstring_eqb_eq in Hu. subst u.
      apply find_none_has in Hfind. congruence.
    + rewrite <- app_assoc. reflexivity.
Qed.

Lemma addAll_Forall (P : Article -> Prop) (l : list Article) :
  forall m, Forall P m -> Forall P l -> Forall P (addAll m l).
Proof.
  induction l as [|a l IH]; intros m Hm Hl; [exact Hm|].
  simpl. inversion Hl as [|? ? Ha Hl']; subst.
  apply IH; [|exact Hl'].
  destruct (has (url a) m); [exact Hm|].
  apply Forall_app. split; [exact Hm | constructor; [exact Ha|constructor]].
Qed.

Lemma fetchKeyword_articles (allArticles : list Article)
  (done : list step) (k : jsstring) :
  fst (fetchKeyword' (allArticles, done) k)
  = addAll allArticles (contribution' k).
Proof.
  unfold fetchKeyword, contribution.
  destruct (keywordArticles' k) as [[articles|] steps]; reflexivity.
Qed.

(** The map after the keywords: the contributions of the keywords, added in
    order. *)
Lemma fold_fetchKeyword (keywords : list jsstring) :
  forall allArticles done,
    fst (fold_left fetchKeyword' keywords (allArticles, done))
    = addAll allArticles (List.flat_map contribution' keywords).
Proof.
  induction keywords as [|k keywords IH]; intros allArticles done;
    [reflexivity|].
  cbn [fold_left flat_map].
  rewrite addAll_app, <- (fetchKeyword_articles allArticles done k).
  destruct (fetchKeyword' (allArticles, done) k) as [allArticles' done'].
  apply IH.
Qed.

Lemma fetchLatestNews_articles :
  fst (fetchLatestNews NEWS_API_KEY GNEWS_API_KEY newsapi gnews)
  = addAll [] (List.flat_map contribution' SEARCH_KEYWORDS).
Proof.
  unfold fetchLatestNews, fetchOver.
  pose proof (fold_fetchKeyword SEARCH_KEYWORDS [] []) as Hfold.
  destruct (fold_left _ SEARCH_KEYWORDS ([], [])) as [allArticles done].
  exact Hfold.
Qed.

(** (X16) No two of the articles returned have the same URL. *)
Theorem fetched_urls_are_distinct :
  NoDup (List.map url
           (fst (fetchLatestNews NEWS_API_KEY GNEWS_API_KEY newsapi gnews))).
Proof.
  rewrite fetchLatestNews_articles. apply addAll_NoDup. constructor.
Qed.

(** (X17) For every URL, the article returned under it is the first one with
    that URL among the keywords' results, taken keyword by keyword in the
    order the providers gave them: the first insertion wins and no URL is
    lost. *)
Theorem first_article_per_url_wins (u : jsstring) :
  firstWithUrl u
    (fst (fetchLatestNews NEWS_API_KEY GNEWS_API_KEY newsapi gnews))
  = firstWithUrl u (List.flat_map contribution' SEARCH_KEYWORDS).
Proof.
  rewrite fetchLatestNews_articles, addAll_first. reflexivity.
Qed.

Lemma toArticle_valid (raw : RawArticle) (a : Article) :
  toArticle raw = Some a ->
  title a <> [] /\ url a <> [] /\ source a <> [].
Proof.
  unfold toArticle.
  destruct (raw_title raw) as [[|c t]|]; try discriminate.
  destruct (raw_url raw) as [[|d u]|]; try discriminate.
  intros [= <-]. simpl. repeat split; try discriminate.
  destruct (raw_source_name raw) as [[|e n]|];
    intros H; apply (f_equal (@List.length N)) in H; simpl in H;
    discriminate.
Qed.

Lemma accepted_valid (articles : option (list RawArticle)) :
  Forall (fun a => title a <> [] /\ url a <> [] /\ source a <> [])
    (accepted articles).
Proof.
  unfold accepted. apply Forall_forall. intros a Hin.
  apply in_flat_map in Hin. destruct Hin as (raw & _ & Hraw).
  destruct (toArticle raw) as [x|] eqn:Hx; [|contradiction].
  destruct Hraw as [<-|[]]. exact (toArticle_valid _ Hx).
Qed.

Lemma contribution_valid (k : jsstring) :
  Forall (fun a => title a <> [] /\ url a <> [] /\ source a <> [])
    (contribution' k).
Proof.
  unfold contribution, keywordArticles.
  assert (Hnews : forall r,
             match fst (fetchFromNewsAPI r) with
             | Returned l =>
                 Forall (fun a => title a <> [] /\ url a <> []
                                  /\ source a <> []) l
             | Thrown => True
             end).
  { intros [| | |[s|] articles]; simpl; try exact I; try constructor.
    destruct (JsString.eqb s (js "ok")); simpl;
      [apply accepted_valid | constructor]. }
  assert (Hgnews : forall r,
             match fst (fetchFromGNews r) with
             | Returned l =>
                 Forall (fun a => title a <> [] /\ url a <> []
                                  /\ source a <> []) l
             | Thrown => True
             end).
  { intros [| | |s articles]; simpl; try exact I; try constructor.
    apply accepted_valid. }
  destruct NEWS_API_KEY.
  - specialize (Hnews (newsapi k)).
    destruct (fetchFromNewsAPI (newsapi k)) as [[l|] logs]; simpl in *;
      [|constructor].
    destruct (Nat.eqb (List.length l) 0 && GNEWS_API_KEY);
      [|exact Hnews].
    specialize (Hgnews (gnews k)).
    destruct (fetchFromGNews (gnews k)) as [[l'|] logs']; simpl in *;
      [exact Hgnews | constructor].
  - simpl. destruct GNEWS_API_KEY; simpl; [|constructor].
    specialize (Hgnews (gnews k)).
    destruct (fetchFromGNews (gnews k)) as [[l'|] logs']; simpl in *;
      [exact Hgnews | constructor].
Qed.

(** (X19) Every article returned has a title, a URL and a source that are not
    empty. *)
Theorem fetched_articles_are_complete (a : Article) :
  In a (fst (fetchLatestNews NEWS_API_KEY GNEWS_API_KEY newsapi gnews)) ->
  title a <> [] /\ url a <> [] /\ source a <> [].
Proof.
  rewrite fetchLatestNews_articles.
  assert (Hall : Forall (fun a => title a <> [] /\ url a <> []
                                  /\ source a <> [])
                   (addAll [] (flat_map contribution' SEARCH_KEYWORDS))).
  { apply addAll_Forall; [constructor|].
    apply Forall_forall. intros x Hx. apply in_flat_map in Hx.
    destruct Hx as (k & _ & Hk).
    pose proof (contribution_valid k) as Hvalid.
    rewrite Forall_forall in Hvalid. apply Hvalid, Hk. }
  rewrite Forall_forall in Hall. apply Hall.
Qed.

Lemma newsapi_logs_only (r : response) (p : provider) (k : jsstring) :
  ~ In (Get p k) (snd (fetchFromNewsAPI r)).
Proof.
  destruct r as [| | |[s|] articles]; simpl; try tauto.
  - intros [H|[]]. discriminate.
  - destruct (JsString.eqb s (js "ok")); simpl; tauto.
Qed.

Lemma gnews_logs_only (r : response) (p : provider) (k : jsstring) :
  ~ In (Get p k) (snd (fetchFromGNews r)).
Proof.
  destruct r as [| | |s articles]; simpl; try tauto.
  intros [H|[]]. discriminate.
Qed.

Lemma length_zero_nil {A} (l : list A) :
  Nat.eqb (List.length l) 0 = true <-> l = [].
Proof. destruct l; simpl; split; congruence. Qed.

(** When one keyword's turn asks the second provider. *)
Lemma keyword_asks_gnews (k kw : jsstring) :
  In (Get GNews kw) (snd (keywordArticles' k)) <->
  k = kw /\ GNEWS_API_KEY = true /\
  (NEWS_API_KEY = false \/
   fst (fetchFromNewsAPI (newsapi k)) = Returned []).
Proof.
  unfold keywordArticles.
  pose proof (newsapi_logs_only (newsapi k) GNews kw) as Hlogs.
  pose proof (gnews_logs_only (gnews k) GNews kw) as Hlogs'.
  destruct NEWS_API_KEY, GNEWS_API_KEY;
    destruct (fetchFromNewsAPI (newsapi k)) as [[[|a l]|] logs];
    destruct (fetchFromGNews (gnews k)) as [r logs'];
    simpl in *; rewrite ?in_app_iff; simpl;
    (split;
     [ intros H;
       first
         [ exfalso; solve [intuition discriminate]
         | assert (Hk : Get GNews k = Get GNews kw)
             by (intuition (try discriminate; try congruence));
           injection Hk as ->; solve [intuition auto] ]
     | intros (-> & Hg & Hn);
       try discriminate;
       try (destruct Hn as [Hn|Hn]; discriminate);
       intuition auto ]).
Qed.

Lemma fetchKeyword_steps (allArticles : list Article)
  (done : list step) (k : jsstring) (p : provider) (kw : jsstring) :
  In (Get p kw) (snd (fetchKeyword' (allArticles, done) k)) <->
  In (Get p kw) done \/ In (Get p kw) (snd (keywordArticles' k)).
Proof.
  unfold fetchKeyword.
  destruct (keywordArticles' k) as [[articles|] steps]; simpl;
    rewrite !in_app_iff; simpl; split; intros H;
    try (destruct H as [H|[H|[H|[]]]]; try discriminate; tauto);
    tauto.
Qed.

Lemma fold_fetchKeyword_steps (p : provider) (kw : jsstring)
  (keywords : list jsstring) :
  forall allArticles done,
    In (Get p kw)
       (snd (fold_left fetchKeyword' keywords (allArticles, done))) <->
    In (Get p kw) done \/
    exists k, In k keywords /\ In (Get p kw) (snd (keywordArticles' k)).
Proof.
  induction keywords as [|k keywords IH]; intros allArticles done.
  - simpl. split; [tauto|]. intros [H|(k & [] & _)]. exact H.
  - cbn [fold_left].
    pose proof (fetchKeyword_steps allArticles done k p kw) as Hstep.
    destruct (fetchKeyword' (allArticles, done) k) as [all' done'].
    rewrite IH. simpl in Hstep. rewrite Hstep. split.
    + intros [[H|H]|(k' & Hin & H)].
      * left. exact H.
      * right. exists k. split; [left; reflexivity | exact H].
      * right. exists k'. split; [right; exact Hin | exact H].
    + intros [H|(k' & [<-|Hin] & H)].
      * left. left. exact H.
      * left. right. exact H.
      * right. exists k'. split; assumption.
Qed.

(** (X18) The second provider is asked for a keyword exactly when its
    credential is set and the first provider is not consulted or has returned
    no article: it is not asked when the first provider's request throws. *)
Theorem second_provider_asked_iff (kw : jsstring) :
  In (Get GNews kw)
     (snd (fetchLatestNews NEWS_API_KEY GNEWS_API_KEY newsapi gnews)) <->
  In kw SEARCH_KEYWORDS /\ GNEWS_API_KEY = true /\
  (NEWS_API_KEY = false \/
   fst (fetchFromNewsAPI (newsapi kw)) = Returned []).
Proof.
  unfold fetchLatestNews, fetchOver.
  pose proof (fold_fetchKeyword_steps GNews kw SEARCH_KEYWORDS [] [])
    as Hfold.
  destruct (fold_left _ SEARCH_KEYWORDS ([], [])) as [allArticles done].
  simpl in Hfold. simpl snd. rewrite in_app_iff, Hfold. split.
  - intros [[[]|(k & Hin & Hk)]|[H|[]]]; [|discriminate].
    apply keyword_asks_gnews in Hk. destruct Hk as (-> & Hg & Hn).
    repeat split; assumption.
  - intros (Hin & Hg & Hn). left. right. exists kw. split; [exact Hin|].
    apply keyword_asks_gnews. repeat split; assumption.
Qed.

End FetcherFacts.

(** ** Footprints of the orchestrator's parts *)

Section Footprints.

Variable env : Env.
Variable P : call -> Prop.

Lemma emits_post {A} (m : M A) (Q Q' : A -> Prop) :
  emits m P Q -> (forall a, Q a -> Q' a) -> emits m P Q'.
Proof.
  intros Hm Hq st. destruct (Hm st) as (l & Hh & Hp & Ha).
  exists l. split; [exact Hh|]. split; [exact Hp|].
  intros a Hr. apply Hq, Ha, Hr.
Qed.

(** A [try] that starts by awaiting [c]: the history grows by [c] and then
    by what the rest of the body and the handler emit. *)
Lemma first_call_then {A B} (c : call) (answer : trace -> outcome A)
  (k : A -> M B) (handler : M B) (Q : B -> Prop) :
  (forall a, emits (k a) P Q) -> emits handler P Q ->
  forall st, exists l,
    history (snd (try_catch (bind (await c answer) k) handler st))
    = history st ++ c :: l /\
    Forall P l /\
    forall b,
      fst (try_catch (bind (await c answer) k) handler st) = Returned b ->
      Q b.
Proof.
  intros Hk Hh st. unfold try_catch, bind, await.
  destruct (answer (history (record c st))) as [a|].
  - destruct (Hk a (record c st)) as (l1 & Hh1 & Hp1 & Hq1).
    destruct (k a (record c st)) as [[b|] st1]; simpl in *.
    + exists l1. rewrite Hh1, <- app_assoc. split; [reflexivity|].
      split; [exact Hp1 | exact Hq1].
    + destruct (Hh st1) as (l2 & Hh2 & Hp2 & Hq2).
      exists (l1 ++ l2). rewrite Hh2, Hh1, <- !app_assoc.
      split; [reflexivity|]. split; [|exact Hq2].
      apply Forall_app. split; assumption.
  - destruct (Hh (record c st)) as (l2 & Hh2 & Hp2 & Hq2).
    exists l2. rewrite Hh2. simpl. rewrite <- app_assoc.
    split; [reflexivity|]. split; [exact Hp2 | exact Hq2].
Qed.

Lemma emits_first_call {A B} (c : call) (answer : trace -> outcome A)
  (k : A -> M B) (handler : M B) (Q : B -> Prop) :
  P c -> (forall a, emits (k a) P Q) -> emits handler P Q ->
  emits (try_catch (bind (await c answer) k) handler) P Q.
Proof.
  intros Hc Hk Hh st.
  destruct (@first_call_then A B c answer k handler Q Hk Hh st)
    as (l & Hl & Hp & Hq).
  exists (c :: l). split; [exact Hl|]. split; [|exact Hq].
  constructor; assumption.
Qed.

Hypothesis inner_calls : forall c, after_lookup_call c = true -> P c.

Lemma classifyNewsEvent_footprint (t : jsstring) (d : option jsstring) :
  emits (classifyNewsEvent env t d) P (fun _ => True).
Proof.
  unfold classifyNewsEvent. apply emits_try_catch.
  - eapply emits_bind with (Q := fun _ => True).
    + apply emits_await; [apply inner_calls; reflexivity|]. intros; exact I.
    + intros text _.
      destruct (JSON_parse_classification env (cleaned text));
        [apply emits_ret; exact I | apply emits_throw].
  - eapply emits_bind with (Q := fun _ => True).
    + apply emits_emit; [apply inner_calls; reflexivity | exact I].
    + intros _ _. apply emits_ret. exact I.
Qed.

Lemma translateNewsTitle_footprint (t : jsstring) :
  emits (translateNewsTitle env t) P (fun _ => True).
Proof.
  unfold translateNewsTitle. apply emits_try_catch.
  - eapply emits_bind with (Q := fun _ => True).
    + apply emits_await; [apply inner_calls; reflexivity|]. intros; exact I.
    + intros text _.
      destruct (JSON_parse_translations env (cleaned text));
        [apply emits_ret; exact I | apply emits_throw].
  - eapply emits_bind with (Q := fun _ => True).
    + apply emits_emit; [apply inner_calls; reflexivity | exact I].
    + intros _ _. apply emits_ret. exact I.
Qed.

Lemma afterInsert_footprint (c : Classification) (row : EventRow)
  (delta : number) (vars : LoopVars) (reply : InsertReply) :
  emits (afterInsert c row delta vars reply) P (article_step vars).
Proof.
  unfold afterInsert. destruct reply as [event_id|insertError].
  - eapply emits_bind with (Q := fun _ => True).
    { apply emits_emit; [apply inner_calls; reflexivity | exact I]. }
    intros _ _.
    eapply emits_bind with (Q := fun _ => True).
    { apply emits_emit; [apply inner_calls; reflexivity | exact I]. }
    intros _ _. apply emits_ret. right. exists delta. simpl.
    split; [reflexivity|].
    destruct (needsAlert _ c); [right; eexists; reflexivity|].
    left. reflexivity.
  - rewrite insertError_check_false.
    eapply emits_bind with (Q := fun _ => True);
      [apply emits_ret; exact I|].
    intros _ _. apply emits_ret. left. reflexivity.
Qed.

(** Processing an article looks its URL up first; what follows is made of
    requests to the reasoning service, the insert of the event, log lines
    and the pause, and it leaves the loop's variables alone or applies one
    delta and queues at most one alert. *)
Lemma processArticle_shape (article : Article) (vars : LoopVars)
  (st : State) :
  exists l,
    history (snd (processArticle env article vars st))
    = history st ++ SelectEventByUrl (url article) :: l /\
    Forall P l /\
    forall vars',
      fst (processArticle env article vars st) = Returned vars' ->
      article_step vars vars'.
Proof.
  unfold processArticle. apply first_call_then.
  - intros [|]; [apply emits_ret; left; reflexivity|].
    eapply emits_bind; [apply classifyNewsEvent_footprint|].
    intros c _.
    eapply emits_bind; [apply translateNewsTitle_footprint|].
    intros tr _. cbv zeta.
    eapply emits_bind with (Q := fun _ => True).
    + apply emits_await; [apply inner_calls; reflexivity|].
      intros; exact I.
    + intros reply _. apply afterInsert_footprint.
  - eapply emits_bind with (Q := fun _ => True).
    + apply emits_emit; [apply inner_calls; reflexivity | exact I].
    + intros _ _. apply emits_ret. left. reflexivity.
Qed.

Hypothesis lookup_calls : forall u, P (SelectEventByUrl u).

Lemma processArticle_footprint (article : Article) (vars : LoopVars) :
  emits (processArticle env article vars) P (article_step vars).
Proof.
  intros st.
  destruct (processArticle_shape article vars st) as (l & Hl & Hp & Hq).
  exists (SelectEventByUrl (url article) :: l).
  split; [exact Hl|]. split; [|exact Hq].
  constructor; [apply lookup_calls | exact Hp].
Qed.

(** The article loop keeps every property of the variables that each turn
    keeps. *)
Lemma article_loop_footprint (articles : list Article)
  (I : LoopVars -> Prop) :
  (forall vars vars', I vars -> article_step vars vars' -> I vars') ->
  forall vars, I vars ->
    emits (for_of articles (processArticle env) vars) P I.
Proof.
  intros Hstep. apply emits_for_of.
  intros a vars Hvars.
  eapply emits_post; [apply processArticle_footprint|].
  intros vars' Hv. exact (Hstep vars vars' Hvars Hv).
Qed.

End Footprints.

Section AlertFootprint.

Variable env : Env.
Variable P : call -> Prop.
Hypothesis alert_calls : forall c, alert_call c = true -> P c.

Lemma processAlert_footprint (alertData : AlertData) :
  emits (processAlert env alertData) P (fun _ => True).
Proof.
  unfold processAlert. apply emits_try_catch;
    [|apply emits_emit; [apply alert_calls; reflexivity | exact I]].
  cbv zeta. eapply emits_bind with (Q := fun _ => True).
  - unfold createAlert. eapply emits_bind with (Q := fun _ => True).
    + apply emits_await; [apply alert_calls; reflexivity|]. intros; exact I.
    + intros [data|err] _; [apply emits_ret; exact I|].
      eapply emits_bind with (Q := fun _ => True);
        [apply emits_emit; [apply alert_calls; reflexivity | exact I]|].
      intros _ _. apply emits_ret. exact I.
  - intros [alert|] _; [|apply emits_ret; exact I].
    eapply emits_bind with (Q := fun _ => True);
      [apply emits_emit; [apply alert_calls; reflexivity | exact I]|].
    intros _ _.
    eapply emits_bind with (Q := fun _ => True).
    { apply emits_await; [apply alert_calls; reflexivity|]. intros; exact I. }
    intros _ _.
    eapply emits_bind with (Q := fun _ => True).
    { apply emits_await; [apply alert_calls; reflexivity|]. intros; exact I. }
    intros [|n] _; [apply emits_ret; exact I|].
    apply emits_await; [apply alert_calls; reflexivity|]. intros; exact I.
Qed.

Lemma alert_loop_footprint (alerts : list AlertData) :
  emits (for_of alerts (fun a _ => processAlert env a) tt) P
    (fun _ => True).
Proof.
  apply emits_for_of with (I := fun _ => True); [|exact I].
  intros a [] _. apply processAlert_footprint.
Qed.

End AlertFootprint.

(** ** The cycle as a whole *)

Section CycleFacts.

Variable env : Env.

Lemma bind_returned {A B} (m : M A) (k : A -> M B) (st st' : State)
  (a : A) :
  m st = (Returned a, st') -> bind m k st = k a st'.
Proof. intros H. unfold bind. rewrite H. reflexivity. Qed.

Lemma processArticle_returns (article : Article) (vars : LoopVars) :
  never_throws (processArticle env article vars).
Proof.
  intros st. unfold processArticle, try_catch.
  match goal with |- context [match ?b st with _ => _ end] =>
    destruct (b st) as [[v|] st'] end.
  - exists v. reflexivity.
  - exists vars. reflexivity.
Qed.

Lemma lookups_app (l1 l2 : trace) :
  lookups (l1 ++ l2) = lookups l1 ++ lookups l2.
Proof. apply flat_map_app. Qed.

Lemma lookups_after_lookup (l : trace) :
  Forall (fun c => after_lookup_call c = true) l -> lookups l = [].
Proof.
  induction 1 as [|c l Hc _ IH]; [reflexivity|].
  unfold lookups in *. simpl. rewrite IH.
  destruct c; try discriminate; reflexivity.
Qed.

(** One turn of the article loop: it returns, and its history starts with
    the lookup of the article's URL and has no other lookup. *)
Lemma processArticle_turn (article : Article) (vars : LoopVars)
  (st : State) :
  exists vars' st' l,
    processArticle env article vars st = (Returned vars', st') /\
    history st' = history st ++ l /\
    lookups l = [url article] /\
    Forall (fun c => article_call c = true) l /\
    article_step vars vars'.
Proof.
  destruct (processArticle_returns article vars st) as (vars' & Hret).
  destruct (@processArticle_shape env (fun c => after_lookup_call c = true)
              (fun c H => H) article vars st) as (l & Hl & Hp & Hq).
  destruct (processArticle env article vars st) as [r st'] eqn:Hrun.
  simpl in *. subst r.
  exists vars', st', (SelectEventByUrl (url article) :: l).
  split; [reflexivity|]. split; [exact Hl|].
  split; [|split; [|apply Hq; reflexivity]].
  - change (url article :: lookups l = [url article]).
    rewrite (lookups_after_lookup Hp). reflexivity.
  - constructor; [reflexivity|].
    eapply Forall_impl; [|exact Hp].
    intros c Hc. destruct c; try discriminate; reflexivity.
Qed.

(** The article loop returns, and only makes calls that belong to the
    processing of an article. *)
Lemma article_loop_returns (articles : list Article) (vars : LoopVars)
  (st : State) :
  exists vars' st' l,
    for_of articles (processArticle env) vars st = (Returned vars', st') /\
    history st' = history st ++ l /\
    Forall (fun c => article_call c = true) l.
Proof.
  revert vars st.
  induction articles as [|a articles IH]; intros vars st.
  - exists vars, st, []. simpl. rewrite app_nil_r.
    repeat split. constructor.
  - destruct (processArticle_turn a vars st)
      as (vars1 & st1 & l1 & Hrun1 & Hh1 & _ & Hp1 & _).
    destruct (IH vars1 st1) as (vars2 & st2 & l2 & Hrun2 & Hh2 & Hp2).
    exists vars2, st2, (l1 ++ l2).
    split; [|split].
    + simpl. rewrite (@bind_returned _ _ _ _ _ _ _ Hrun1). exact Hrun2.
    + rewrite Hh2, Hh1, app_assoc. reflexivity.
    + apply Forall_app. split; assumption.
Qed.

(** (X20) Failure isolation in the article loop: whatever the store and the
    reasoning service answer or throw, the loop returns, and it has looked
    up every article of the batch exactly once, in the order of the batch;
    every other call it made belongs to the processing of an article. *)
Theorem every_article_is_looked_up_once (articles : list Article)
  (vars : LoopVars) (st : State) :
  exists vars' st' l,
    for_of articles (processArticle env) vars st = (Returned vars', st') /\
    history st' = history st ++ l /\
    lookups l = List.map url articles /\
    Forall (fun c => article_call c = true) l.
Proof.
  revert vars st.
  induction articles as [|a articles IH]; intros vars st.
  - exists vars, st, []. simpl. rewrite app_nil_r.
    repeat split. constructor.
  - destruct (processArticle_turn a vars st)
      as (vars1 & st1 & l1 & Hrun1 & Hh1 & Hl1 & Hp1 & _).
    destruct (IH vars1 st1) as (vars2 & st2 & l2 & Hrun2 & Hh2 & Hl2 & Hp2).
    exists vars2, st2, (l1 ++ l2).
    split; [|split; [|split]].
    + simpl. rewrite (@bind_returned _ _ _ _ _ _ _ Hrun1). exact Hrun2.
    + rewrite Hh2, Hh1, app_assoc. reflexivity.
    + rewrite lookups_app, Hl1, Hl2. reflexivity.
    + apply Forall_app. split; assumption.
Qed.

(** After the tension sample: the log lines and the queued alerts. *)
Lemma after_sample_footprint (P : call -> Prop) (alerts : list AlertData) :
  (forall c, alert_call c = true -> P c) ->
  emits (logger Info "Tension updated" ;;;
         for_of alerts (fun a _ => processAlert env a) tt ;;;
         logger Info "◈ News cycle completed") P (fun _ => True).
Proof.
  intros Hp.
  eapply emits_bind with (Q := fun _ => True).
  { apply emits_emit; [apply Hp; reflexivity | exact I]. }
  intros _ _.
  eapply emits_bind with (Q := fun _ => True).
  { apply alert_loop_footprint. exact Hp. }
  intros _ _. apply emits_emit; [apply Hp; reflexivity | exact I].
Qed.

(** (X21) Every batch writes exactly one tension sample, whatever happened to
    its articles: the calls before it belong to the processing of the
    articles, the calls after it to the dispatch of the alerts, so no alert
    is stored or sent before the sample is written and no article is
    touched after it. *)
Theorem one_sample_between_articles_and_alerts (articles : list Article)
  (start : number) (st : State) :
  exists l1 v l2,
    history (snd (processBatch env articles start st))
    = history st ++ l1 ++ InsertTension v (tensionNotes articles) :: l2 /\
    Forall (fun c => article_call c = true) l1 /\
    Forall (fun c => alert_call c = true) l2.
Proof.
  destruct (article_loop_returns articles
              {| currentTension := start; alertsToFire := [] |} st)
    as (vars & st1 & l1 & Hrun & Hh1 & Hp1).
  exists l1, (currentTension vars).
  unfold processBatch. rewrite (@bind_returned _ _ _ _ _ _ _ Hrun).
  unfold bind at 1. unfold await.
  set (st2 := record _ st1).
  assert (Hh2 : history st2
                = history st ++ l1
                  ++ [InsertTension (currentTension vars)
                        (tensionNotes articles)]).
  { unfold st2. rewrite record_history, Hh1, app_assoc. reflexivity. }
  destruct (insertTension env (history st2)) as [[]|].
  - destruct (@after_sample_footprint (fun c => alert_call c = true)
                (alertsToFire vars) (fun c H => H) st2)
      as (l2 & Hl2 & Hp2 & _).
    exists l2. rewrite Hl2, Hh2, <- !app_assoc.
    split; [reflexivity|]. split; assumption.
  - exists []. cbn [snd]. rewrite Hh2. split; [reflexivity|].
    split; [assumption | constructor].
Qed.

(** The footprint of a batch, for a property of the loop's variables that
    every turn keeps. *)
Lemma processBatch_footprint (P : call -> Prop) (Inv : LoopVars -> Prop)
  (articles : list Article) (start : number) :
  (forall c, article_call c = true -> P c) ->
  (forall c, alert_call c = true -> P c) ->
  Inv {| currentTension := start; alertsToFire := [] |} ->
  (forall vars vars', Inv vars -> article_step vars vars' -> Inv vars') ->
  (forall vars notes, Inv vars ->
     P (InsertTension (currentTension vars) notes)) ->
  emits (processBatch env articles start) P (fun _ => True).
Proof.
  intros Harticle Halert Hinit Hstep Hsample. unfold processBatch.
  eapply emits_bind with (Q := Inv).
  { apply article_loop_footprint; try assumption.
    - intros c Hc. apply Harticle.
      destruct c; try discriminate; reflexivity.
    - intros u. apply Harticle. reflexivity. }
  intros vars Hvars.
  eapply emits_bind with (Q := fun _ => True).
  { apply emits_await; [apply Hsample; exact Hvars|]. intros; exact I. }
  intros _ _. apply after_sample_footprint. exact Halert.
Qed.

(** The footprint of a cycle, from the footprint of its batch. *)
Lemma runNewsCycle_footprint (P : call -> Prop) (S : number -> Prop) :
  (forall l msg, P (Log l msg)) ->
  P FetchLatestNews -> P SelectLatestTension ->
  (forall h latest,
     latestTension env h = Returned latest -> S (startingTension latest)) ->
  (forall articles start,
     S start -> emits (processBatch env articles start) P (fun _ => True)) ->
  emits (runNewsCycle env) P (fun _ => True).
Proof.
  intros Hlog Hfetch Hlatest Hstart Hbatch. unfold runNewsCycle.
  eapply emits_bind with (Q := fun _ => True).
  { apply emits_state_only; intros; [reflexivity | exact I]. }
  intros [|] _; [apply emits_emit; [apply Hlog | exact I]|].
  eapply emits_bind with (Q := fun _ => True).
  { apply emits_state_only; intros; [reflexivity | exact I]. }
  intros _ _.
  eapply emits_bind with (Q := fun _ => True);
    [apply emits_emit; [apply Hlog | exact I]|].
  intros _ _. apply emits_try_finally.
  - apply emits_try_catch; [|apply emits_emit; [apply Hlog | exact I]].
    unfold cycleBody.
    eapply emits_bind with (Q := fun _ => True).
    { apply emits_await; [exact Hfetch|]. intros; exact I. }
    intros [|a rest] _; [apply emits_emit; [apply Hlog | exact I]|].
    eapply emits_bind with (Q := fun start => S (startingTension start)).
    { apply emits_await; [exact Hlatest|]. exact Hstart. }
    intros latest Hs. apply Hbatch. exact Hs.
  - apply emits_state_only; intros; [reflexivity | exact I].
Qed.

Lemma applyTensionDelta_in_range_or_nan (current delta : number) :
  in_range_or_nan (applyTensionDelta current delta).
Proof.
  unfold in_range_or_nan, applyTensionDelta.
  destruct (isNaN (round2 (withGravity current delta))) eqn:Hnan.
  - right. destruct (round2 _); try discriminate. reflexivity.
  - left. apply clamp_in_range. exact Hnan.
Qed.

(** (X22) The range of the tension index is kept along a whole cycle: if the
    latest sample the store answers with is in [0, 100], every sample the
    cycle writes is in [0, 100] or is NaN, whatever scores the reasoning
    service returned and however many articles were applied. *)
Theorem samples_stay_in_range :
  (forall h v, latestTension env h = Returned (Some v) ->
     in_0_100 v = true) ->
  emits (runNewsCycle env) sample_in_range (fun _ => True).
Proof.
  intros Hstore.
  apply runNewsCycle_footprint with (S := in_range_or_nan);
    try exact I.
  - intros l msg. exact I.
  - intros h [v|] Hlatest; unfold startingTension.
    + destruct (JsNumber.truthy v); left;
        [exact (Hstore h v Hlatest) | reflexivity].
    + left. reflexivity.
  - intros articles start Hs.
    apply processBatch_footprint
      with (Inv := fun vars => in_range_or_nan (currentTension vars)).
    + intros c Hc. destruct c; try discriminate; exact I.
    + intros c Hc. destruct c; try discriminate; exact I.
    + exact Hs.
    + intros vars vars' Hvars [->|(delta & Ht & _)]; [exact Hvars|].
      rewrite Ht. apply applyTensionDelta_in_range_or_nan.
    + intros vars notes Hvars. exact Hvars.
Qed.


(** (X24) Idempotent ingestion: when the store answers no lookup with "not
    found" (every article is already stored, or the lookup throws), the
    batch asks the reasoning service nothing, inserts no event, queues and
    sends no alert, and the one tension sample it writes is the tension it
    started from. *)
Theorem stored_articles_are_passed_over (articles : list Article)
  (start : number) :
  (forall h, eventExists env h <> Returned false) ->
  emits (processBatch env articles start) (passes_over start)
    (fun _ => True).
Proof.
  intros Hfound. unfold processBatch.
  eapply emits_bind
    with (Q := fun vars =>
                 vars = {| currentTension := start; alertsToFire := [] |}).
  { apply emits_for_of; [|reflexivity].
    intros a vars ->. unfold processArticle. apply emits_try_catch.
    - eapply emits_bind with (Q := fun b => b = true).
      + apply emits_await; [exact I|].
        intros h [|] Hb; [reflexivity|]. destruct (Hfound h Hb).
      + intros b ->. apply emits_ret. reflexivity.
    - eapply emits_bind with (Q := fun _ => True).
      + apply emits_emit; exact I.
      + intros _ _. apply emits_ret. reflexivity. }
  intros vars ->. simpl.
  eapply emits_bind with (Q := fun _ => True).
  { apply emits_await; [reflexivity|]. intros; exact I. }
  intros _ _.
  eapply emits_bind with (Q := fun _ => True);
    [apply emits_emit; exact I|].
  intros _ _.
  eapply emits_bind with (Q := fun _ => True);
    [apply emits_ret; exact I|].
  intros _ _. apply emits_emit; exact I.
Qed.

(** (X25) A cycle whose search returns no article, or throws, touches neither
    the store nor the reasoning service: its history is the start line, the
    search and one closing line, "No new articles found" at level info or
    "News cycle failed" at level error, and the guard is released. *)
Theorem cycle_without_articles (st : State) :
  isRunning st = false ->
  (forall a rest,
     fetchLatestNews env
       (history st ++ [Log Info (js "◈ News cycle started"); FetchLatestNews])
     <> Returned (a :: rest)) ->
  runNewsCycle env st
  = (Returned tt,
     {| isRunning := false;
        history :=
          history st
          ++ [Log Info (js "◈ News cycle started"); FetchLatestNews;
              match fetchLatestNews env
                      (history st
                       ++ [Log Info (js "◈ News cycle started");
                           FetchLatestNews]) with
              | Returned _ => Log Info (js "No new articles found")
              | Thrown => Log Error (js "News cycle failed")
              end] |}).
Proof.
  intros Hidle Hnone.
  unfold runNewsCycle, bind, get_isRunning. rewrite Hidle.
  cbv beta iota delta [set_isRunning logger emit try_finally try_catch
                       cycleBody bind await record history isRunning].
  rewrite <- app_assoc. simpl app.
  destruct (fetchLatestNews env _) as [[|a rest]|] eqn:Hfetch.
  - rewrite <- app_assoc. reflexivity.
  - destruct (Hnone a rest eq_refl).
  - rewrite <- app_assoc. reflexivity.
Qed.

(** (X26) An alert that could not be stored is not sent: when the insert of
    the alert fails or throws, [processAlert] reaches neither the channel
    nor the subscribers, and it never throws itself, so the alerts behind it
    in the queue are still dispatched. *)
Theorem unsaved_alert_is_not_sent (alertData : AlertData) :
  (forall h data, insertAlert env h <> Returned (AlertInserted data)) ->
  never_throws (processAlert env alertData) /\
  emits (processAlert env alertData) (fun c => channel_call c = false)
    (fun _ => True).
Proof.
  intros Hfails. split.
  - intros st. exists tt. apply try_catch_logger_returns.
  - unfold processAlert. apply emits_try_catch;
      [|apply emits_emit; [reflexivity | exact I]].
    cbv zeta. eapply emits_bind with (Q := fun alert => alert = None).
    + unfold createAlert.
      eapply emits_bind
        with (Q := fun reply => forall data, reply <> AlertInserted data).
      * apply emits_await; [reflexivity|].
        intros h reply Hr data ->. exact (Hfails h data Hr).
      * intros [data|err] Hreply; [destruct (Hreply data eq_refl)|].
        eapply emits_bind with (Q := fun _ => True);
          [apply emits_emit; [reflexivity | exact I]|].
        intros _ _. apply emits_ret. reflexivity.
    + intros alert ->. apply emits_ret. exact I.
Qed.

End CycleFacts.

(** * More instances *)

Section MoreInstances.

Import Examples.
Import Samples.

Lemma unknown_category_counts_as_other_witness :
  calculateTensionDelta (js "sports") (of_Z 5) (js "match report")
  = calculateTensionDelta (js "other") (of_Z 5) (js "match report").
Proof.
  apply (@unknown_category_counts_as_other (js "sports") (of_Z 5)
           (js "match report"));
    intros H; vm_compute in H;
    repeat (destruct H as [H|H]; [discriminate|]); exact H.
Defined.

Lemma delta_direction_witness :
  if hasDeescalation mixed_title
  then le (calculateTensionDelta (js "military") (of_Z 10) mixed_title)
          (of_Z 0) = true
  else le (of_Z 0)
          (calculateTensionDelta (js "military") (of_Z 10) mixed_title)
       = true.
Proof.
  apply (@delta_direction (js "military") (of_Z 10) mixed_title).
  - intros H; vm_compute in H;
      repeat (destruct H as [H|H]; [discriminate|]); exact H.
  - reflexivity.
Defined.

Lemma keyword_anywhere_triggers_alert_witness :
  (forall d, shouldTriggerAlert (js "anti" ++ js "missile" ++ js "s") d
               (of_Z 0) = true) /\
  (forall t, shouldTriggerAlert t
               (Some (js "anti" ++ js "missile" ++ js "s")) (of_Z 0)
             = true).
Proof.
  apply (@keyword_anywhere_triggers_alert (js "missile") (js "anti")
           (js "s") (of_Z 0)).
  in_list.
Defined.

Lemma fence_free_reply_is_trimmed_witness :
  cleaned prose_reply = trim prose_reply.
Proof.
  apply (@fence_free_reply_is_trimmed prose_reply).
  vm_compute. repeat (constructor; [discriminate|]). constructor.
Defined.

Lemma fenced_reply_is_unwrapped_witness :
  cleaned (js "```json" ++ js " {} " ++ js "```") = trim (js " {} ").
Proof.
  apply (@fenced_reply_is_unwrapped (js " {} ")).
  vm_compute. repeat (constructor; [discriminate|]). constructor.
Defined.

Lemma fetched_articles_are_complete_witness :
  title relayed <> [] /\ url relayed <> [] /\ source relayed <> [].
Proof.
  apply (@fetched_articles_are_complete true false wire unreachable relayed).
  vm_compute. left. reflexivity.
Defined.

Lemma samples_stay_in_range_witness :
  emits (runNewsCycle (world [headline] (Some (of_Z 60)) offscale_reply))
    sample_in_range (fun _ => True).
Proof.
  apply (@samples_stay_in_range
           (world [headline] (Some (of_Z 60)) offscale_reply)).
  intros h v [= <-]. reflexivity.
Defined.


Lemma stored_articles_are_passed_over_witness :
  emits (processBatch broken_world [headline] (of_Z 75))
    (passes_over (of_Z 75)) (fun _ => True).
Proof.
  apply (@stored_articles_are_passed_over broken_world [headline]
           (of_Z 75)).
  discriminate.
Defined.

Lemma cycle_without_articles_witness :
  runNewsCycle (world [] None prose_reply) idle
  = (Returned tt,
     {| isRunning := false;
        history := [Log Info (js "◈ News cycle started"); FetchLatestNews;
                    Log Info (js "No new articles found")] |}).
Proof.
  apply (@cycle_without_articles (world [] None prose_reply) idle).
  - reflexivity.
  - discriminate.
Defined.

Lemma unsaved_alert_is_not_sent_witness :
  never_throws (processAlert (world [headline] None prose_reply) queued) /\
  emits (processAlert (world [headline] None prose_reply) queued)
    (fun c => channel_call c = false) (fun _ => True).
Proof.
  apply (@unsaved_alert_is_not_sent (world [headline] None prose_reply)
           queued).
  discriminate.
Defined.

End MoreInstances.
